(** * Proximity detection of [app.py] (MapCreator.create_map_optimized)

    A shallow embedding of the detection core of [src/app.py]: the
    voltage-to-thickness policy [get_thickness], the threshold table
    [distances], the residential index build, the pass over point objects
    and the pass over power-line segments.

    Conventions.
    - Python [float] is IEEE binary64: Rocq's primitive [float].
    - Python [int] is unbounded: [Z].
    - Python [str] is [string]; the model of [int(str)] covers ASCII text.
    - A [dict] decoded from JSON is a record of the keys the code reads,
      each key optional; the node table and the tag dictionaries are [gmap]s.
    - A raised exception is the [Raise] constructor of [result]. *)

From Stdlib Require Import ZArith List Bool Ascii String Lia.
From Stdlib Require Import PrimFloat Uint63 SpecFloat FloatOps FloatAxioms.
From stdpp Require Import base option list gmap strings.

Local Open Scope string_scope.
Local Open Scope list_scope.
Local Open Scope Z_scope.

(* ===================================================================== *)
(** ** Exceptions *)

Inductive exn : Type :=
| KeyError (key : string)      (* a missing [str] key of a dict *)
| KeyErrorId (key : Z)         (* a missing [int] key of a dict *)
| IndexError                   (* list index out of range *)
| ValueError.                  (* folium's refusal of an empty line *)

Inductive result (A : Type) : Type :=
| Ok (a : A)
| Raise (e : exn).
Arguments Ok {A} a.
Arguments Raise {A} e.

(** [result] is a monad: [x ← r; k] runs [k] unless [r] raised. *)
#[global] Instance result_ret : MRet result := fun A a => Ok a.
#[global] Instance result_bind : MBind result := fun A B k r =>
  match r with
  | Ok a => k a
  | Raise e => Raise e
  end.

(** [for x in xs: body] over a state [s]; the first exception stops the loop. *)
Fixpoint for_each {A S} (xs : list A) (body : A -> S -> result S) (s : S)
  : result S :=
  match xs with
  | [] => Ok s
  | x :: xs' => s' ← body x s; for_each xs' body s'
  end.

(** [d[k]] on a dict with [str] keys. *)
Definition getitem {V} (d : gmap string V) (k : string) : result V :=
  match d !! k with
  | Some v => Ok v
  | None => Raise (KeyError k)
  end.

(** [xs[i]] on a list, for a non-negative index. *)
Definition list_getitem {A} (xs : list A) (i : nat) : result A :=
  match xs !! i with
  | Some x => Ok x
  | None => Raise IndexError
  end.

(* ===================================================================== *)
(** ** Python built-ins used by [get_thickness] *)

Module Py.

(** [s.split(sep)] for a one-character separator: always at least one token. *)
Fixpoint split (sep : ascii) (s : string) : list string :=
  match s with
  | EmptyString => [EmptyString]
  | String c rest =>
      if Ascii.eqb c sep then EmptyString :: split sep rest
      else match split sep rest with
           | tok :: toks => String c tok :: toks
           | [] => [String c EmptyString]
           end
  end.

(** White space skipped by [int(str)]: U+0009..U+000D, U+001C..U+0020. *)
Definition is_space (c : ascii) : bool :=
  let n := N_of_ascii c in
  ((9 <=? n) && (n <=? 13) || (28 <=? n) && (n <=? 32))%N.

Definition digit_value (c : ascii) : option Z :=
  let n := N_of_ascii c in
  if ((48 <=? n) && (n <=? 57))%N then Some (Z.of_N n - 48) else None.

Fixpoint lstrip (s : string) : string :=
  match s with
  | String c rest => if is_space c then lstrip rest else s
  | EmptyString => EmptyString
  end.

Fixpoint all_space (s : string) : bool :=
  match s with
  | String c rest => is_space c && all_space rest
  | EmptyString => true
  end.

(** The digit scan of [PyLong_FromString] in base 10: digits, with single
    underscores between them, then optional trailing white space.
    [acc] is the value read so far, [prev_us] tells whether the previous
    character was an underscore. *)
Fixpoint scan_digits (s : string) (acc : Z) (prev_us : bool) : option Z :=
  match s with
  | EmptyString => if prev_us then None else Some acc
  | String c rest =>
      match digit_value c with
      | Some d => scan_digits rest (10 * acc + d) false
      | None =>
          if Ascii.eqb c "_" then
            if prev_us then None else scan_digits rest acc true
          else if prev_us then None
          else if all_space s then Some acc else None
      end
  end.

(** [int(s)]: [None] stands for [ValueError]. White space around the
    number, one sign, and digits with single underscores between them are
    accepted. Digits outside ASCII and the interpreter's limit on the
    number of digits are not modelled. *)
Definition int (s : string) : option Z :=
  let body sign rest :=
    match rest with
    | String c _ =>
        match digit_value c with
        | Some _ => z ← scan_digits rest 0 false; Some (sign * z)
        | None => None        (* no digit, or a leading underscore *)
        end
    | EmptyString => None
    end in
  match lstrip s with
  | String "+" rest => body 1 rest
  | String "-" rest => body (-1) rest
  | rest => body 1 rest
  end.

(** [max(xs)] on a non-empty list of ints: the first element is kept until
    a strictly greater one is met. [None] stands for the [ValueError] of an
    empty argument. *)
Definition max (xs : list Z) : option Z :=
  match xs with
  | [] => None
  | x :: rest => Some (fold_left (fun cur y => if cur <? y then y else cur) rest x)
  end.

(** [min(a, b)] and [max(a, b)] on floats: the first argument is kept
    unless the second compares strictly below (above) it. *)
Definition fmin (a b : float) : float := if (b <? a)%float then b else a.
Definition fmax (a b : float) : float := if (a <? b)%float then b else a.

(** [range(n)] *)
Definition range (n : Z) : list nat := seq 0 (Z.to_nat n).

(** [enumerate(xs)], counting from [start]. *)
Fixpoint enumerate_from {A} (start : nat) (xs : list A) : list (nat * A) :=
  match xs with
  | [] => []
  | x :: xs' => (start, x) :: enumerate_from (S start) xs'
  end.
Definition enumerate {A} (xs : list A) : list (nat * A) := enumerate_from 0 xs.

(** The float an [int] is compared as. The conversion is exact below
    [2^53], where it agrees with Python's exact mixed comparison; every
    threshold of the program is at most 55. *)
Definition float_of_int (n : Z) : float :=
  if n <? 0 then (- of_uint63 (Uint63.of_Z (- n)))%float
  else of_uint63 (Uint63.of_Z n).

(** The literal [0.01]: the binary64 value nearest to it. *)
Definition margin : float := 0x1.47ae147ae147bp-7.

(** [x <= n] for a float [x] and an int [n]. *)
Definition le_float_int (x : float) (n : Z) : bool :=
  (x <=? float_of_int n)%float.

End Py.

(* ===================================================================== *)
(** ** RiskPolicy: [get_thickness] and [distances] *)

(** [list(map(int, voltage.split(';')))]: the first token that does not
    convert raises. *)
Definition parse_voltages (voltage : string) : option (list Z) :=
  mapM Py.int (Py.split ";" voltage).

Definition get_thickness (voltage : string) : Z :=
  if String.eqb voltage "" then 40
  else
    match parse_voltages voltage ≫= Py.max with
    | None => 20
    | Some max_voltage =>
        if max_voltage <? 1000 then 2
        else if max_voltage <? 20000 then 10
        else if max_voltage =? 35000 then 15
        else if max_voltage =? 110000 then 20
        else if (max_voltage =? 150000) || (max_voltage =? 220000) then 25
        else if (max_voltage =? 330000) || (max_voltage =? 400000)
                || (max_voltage =? 500000) then 30
        else if max_voltage =? 750000 then 40
        else if max_voltage =? 1150000 then 55
        else 20
    end.

(** The two dict literals of [create_map_optimized]. *)
Definition colors : gmap string string :=
  list_to_map [("Substation", "blue"); ("Transformer", "green");
               ("Converter", "orange"); ("Communication Tower", "red")].

Definition distances : gmap string Z :=
  list_to_map [("Communication Tower", 45); ("Substation", 10);
               ("Transformer", 10); ("Converter", 10)].

(* ===================================================================== *)
(** ** The spatial index ([rtree.index.Index])

    The library is modelled by its contract: an index holds the inserted
    (id, box) items, and [intersection] yields the ids of the items whose
    box meets the query box, borders included. Boxes are interleaved,
    [(minx, miny, maxx, maxy)]. The order of the ids is the insertion
    order here; the library promises none. The library refuses a box
    whose minimum exceeds its maximum; the boxes of this program (a point
    twice, or minima less a margin and maxima plus a margin) are not of
    that kind, and the refusal is not modelled. *)

Module rtree.

Definition bbox : Type := float * float * float * float.

Definition Index : Type := list (nat * bbox).

Definition empty : Index := [].

Definition insert (idx : Index) (id : nat) (coordinates : bbox) : Index :=
  idx ++ [(id, coordinates)].

Definition intersects (a b : bbox) : bool :=
  let '(aminx, aminy, amaxx, amaxy) := a in
  let '(bminx, bminy, bmaxx, bmaxy) := b in
  ((aminx <=? bmaxx) && (bminx <=? amaxx)
   && (aminy <=? bmaxy) && (bminy <=? amaxy))%float.

Definition intersection (idx : Index) (coordinates : bbox) : list nat :=
  map fst (List.filter (fun item => intersects (snd item) coordinates) idx).

End rtree.

(* ===================================================================== *)
(** ** Data *)

(** An element of the Overpass response, by the keys the code reads. *)
Record element : Type := Element {
  el_type : option string;
  el_lat : option float;
  el_lon : option float;
  el_nodes : option (list Z);
  el_tags : option (gmap string string);
}.

(** [element[key]] *)
Definition el_getitem {V} (key : string) (field : option V) : result V :=
  match field with
  | Some v => Ok v
  | None => Raise (KeyError key)
  end.

Record Icon : Type := { icon_color : string; icon_name : string }.

(** What is added to the folium map. *)
Inductive child : Type :=
| CircleMarker (location : float * float) (radius : Z) (color : string)
    (fill : bool) (fill_color : string) (popup : string)
| Marker (location : float * float) (icon : Icon) (popup : string)
| PolyLine (locations : list (float * float)) (color : string)
    (weight opacity : float).

(** The folium map: its zoom and the children added so far, oldest first.
    The [location] of the map (the mean of the node coordinates) is a
    display attribute and is left out. *)
Record Map : Type := { zoom_start : Z; children : list child }.

Definition add_to (c : child) (m : Map) : Map :=
  {| zoom_start := zoom_start m; children := children m ++ [c] |}.

(** [folium.PolyLine(locations, color=, weight=, opacity=)]: folium
    validates the locations and refuses an empty list with
    [ValueError('Locations is empty.')]. Coordinates are numbers (the
    invariant of the data model), so the refusal of a NaN by
    [CircleMarker], [Marker] and [PolyLine] does not arise. *)
Definition folium_PolyLine (locations : list (float * float)) (color : string)
    (weight opacity : float) : result child :=
  match locations with
  | [] => Raise ValueError
  | _ :: _ => Ok (PolyLine locations color weight opacity)
  end.

Record MapCreator : Type := {
  nodes : gmap Z (float * float);          (* id -> (lat, lon) *)
  power_objects : list (Z * string);       (* (node id, kind) *)
  ways : list element;
  residential_nodes : list element;
}.

(** The element loop of [OverpassAPI.fetch_buildings] (lines 73-76). *)
Definition fetch_buildings_elements (elements residential_nodes : list element)
  : result (list element) :=
  for_each elements (fun element residential_nodes =>
    type ← el_getitem "type" (el_type element);
    if String.eqb type "node" then Ok (residential_nodes ++ [element])
    else Ok residential_nodes) residential_nodes.

(* ===================================================================== *)
(** ** ProximityEngine: [MapCreator.create_map_optimized] *)

Definition danger_icon : Icon :=
  {| icon_color := "red"; icon_name := "exclamation-sign" |}.

(** [way.get('tags', {}).get('voltage', '')] *)
Definition way_voltage (way : element) : string :=
  default "" (default ∅ (el_tags way) !! "voltage").

(** [thickness * distances.get('power_line', 1)] *)
Definition line_threshold (thickness : Z) : Z :=
  thickness * default 1 (distances !! "power_line").

Section Engine.

(** [geodesic(a, b).meters] of geopy, on [(lat, lon)] pairs; geopy is
    outside the repository and is a parameter of the model, taken as
    total (latitudes are within [-90, 90]). *)
Variable geodesic : float * float -> float * float -> float.

(** Lines 104-105: the body of the index loop. *)
Definition insert_residential (item : nat * element) (res_index : rtree.Index)
  : result rtree.Index :=
  let '(pos, res_node) := item in
  res_lat ← el_getitem "lat" (el_lat res_node);
  res_lon ← el_getitem "lon" (el_lon res_node);
  Ok (rtree.insert res_index pos (res_lon, res_lat, res_lon, res_lat)).

(** Lines 102-105: the index over the residential nodes. *)
Definition build_index (residential_nodes : list element) : result rtree.Index :=
  for_each (Py.enumerate residential_nodes) insert_residential rtree.empty.

(** Lines 121-129: one candidate of a point object. *)
Definition check_point_candidate (self : MapCreator) (type_ : string)
    (lat lon : float) (idx : nat) (map_osm : Map) : result Map :=
  res_node ← list_getitem (residential_nodes self) idx;
  res_lat ← el_getitem "lat" (el_lat res_node);
  res_lon ← el_getitem "lon" (el_lon res_node);
  let distance := geodesic (lat, lon) (res_lat, res_lon) in
  threshold ← getitem distances type_;
  if Py.le_float_int distance threshold then
    Ok (add_to (Marker (res_lat, res_lon) danger_icon
                  "Residential Building near Power Object") map_osm)
  else Ok map_osm.

(** Lines 108-129: one point object. *)
Definition process_power_object (self : MapCreator) (res_index : rtree.Index)
    (obj : Z * string) (map_osm : Map) : result Map :=
  let '(node_id, type_) := obj in
  '(lat, lon) ← match nodes self !! node_id with
                 | Some p => Ok p
                 | None => Raise (KeyErrorId node_id)
                 end;
  let map_osm :=
    add_to (CircleMarker (lat, lon) 10 (default "gray" (colors !! type_)) true
              (default "gray" (colors !! type_)) type_) map_osm in
  let nearby_res_nodes :=
    rtree.intersection res_index
      (lon - Py.margin, lat - Py.margin, lon + Py.margin, lat + Py.margin)%float in
  for_each nearby_res_nodes (check_point_candidate self type_ lat lon) map_osm.

(** Line 159: the vertices of a way that the node table resolves. *)
Definition resolve_points (self : MapCreator) (way_nodes : list Z)
  : list (float * float) :=
  omap (fun node_id => nodes self !! node_id) way_nodes.

(** Lines 165-168: the padded box of a segment. *)
Definition segment_box (start_point end_point : float * float) : rtree.bbox :=
  (Py.fmin (snd start_point) (snd end_point) - Py.margin,
   Py.fmin (fst start_point) (fst end_point) - Py.margin,
   Py.fmax (snd start_point) (snd end_point) + Py.margin,
   Py.fmax (fst start_point) (fst end_point) + Py.margin)%float.

(** Lines 170-183: one candidate of a segment. *)
Definition check_line_candidate (self : MapCreator) (way : element)
    (start_point end_point : float * float) (idx : nat) (map_osm : Map)
  : result Map :=
  res_node ← list_getitem (residential_nodes self) idx;
  res_lat ← el_getitem "lat" (el_lat res_node);
  res_lon ← el_getitem "lon" (el_lon res_node);
  let distance_to_line_segment :=
    Py.fmin (geodesic start_point (res_lat, res_lon))
            (geodesic end_point (res_lat, res_lon)) in
  let voltage := way_voltage way in
  let thickness := get_thickness voltage in
  if Py.le_float_int distance_to_line_segment (line_threshold thickness) then
    Ok (add_to (Marker (res_lat, res_lon) danger_icon
                  "Residential Building near Power Line") map_osm)
  else Ok map_osm.

(** Lines 163-183: the segment that starts at vertex [i]. *)
Definition process_segment (self : MapCreator) (res_index : rtree.Index)
    (way : element) (points : list (float * float)) (i : nat) (map_osm : Map)
  : result Map :=
  start_point ← list_getitem points i;
  end_point ← list_getitem points (i + 1);
  let nearby_res_nodes :=
    rtree.intersection res_index (segment_box start_point end_point) in
  for_each nearby_res_nodes
    (check_line_candidate self way start_point end_point) map_osm.

(** Lines 159-188: one way. The [voltage] and [thickness] recomputed at
    lines 185-186 are not used and cannot raise. The line is drawn at
    line 188 after the segments, and [folium.PolyLine] raises when no
    vertex was resolved. *)
Definition process_way (self : MapCreator) (res_index : rtree.Index)
    (way : element) (map_osm : Map) : result Map :=
  way_nodes ← el_getitem "nodes" (el_nodes way);
  let points := resolve_points self way_nodes in
  map_osm ← for_each (Py.range (Z.of_nat (length points) - 1))
              (process_segment self res_index way points) map_osm;
  polyline ← folium_PolyLine points "blue" 2.5 1;
  Ok (add_to polyline map_osm).

Definition create_map_optimized (self : MapCreator) : result Map :=
  if Nat.eqb (size (nodes self)) 0 then
    Ok {| zoom_start := 2; children := [] |}
  else
    let map_osm := {| zoom_start := 12; children := [] |} in
    res_index ← build_index (residential_nodes self);
    map_osm ← for_each (power_objects self)
                (process_power_object self res_index) map_osm;
    map_osm ← for_each (ways self) (process_way self res_index) map_osm;
    Ok map_osm.

End Engine.

(* ===================================================================== *)
(** ** Definitions used to state the properties *)

(** [add_to] repeated over a list of children. *)
Definition add_all (cs : list child) (m : Map) : Map :=
  {| zoom_start := zoom_start m; children := children m ++ cs |}.

(** The coordinates of a residential record, when it has both keys. *)
Definition coords (e : element) : option (float * float) :=
  lat ← el_lat e; lon ← el_lon e; Some (lat, lon).

(** The item [build_index] stores for the record at position [pos]. *)
Definition index_item (p : nat * element) : option (nat * rtree.bbox) :=
  '(lat, lon) ← coords p.2; Some (p.1, (lon, lat, lon, lat)).

(** The padded box of a point object at [(lat, lon)] (line 119). *)
Definition point_box (lat lon : float) : rtree.bbox :=
  (lon - Py.margin, lat - Py.margin, lon + Py.margin, lat + Py.margin)%float.

(** The warning marker of a residential point. *)
Definition hit_marker (res : float * float) (popup : string) : child :=
  Marker res danger_icon popup.

(** The four recognised kinds. *)
Definition recognized_kinds : list string :=
  ["Communication Tower"; "Substation"; "Transformer"; "Converter"].

(** The voltage table in the words of the specification. *)
Definition thickness_by_range (v : Z) : Z :=
  if decide (v < 1000) then 2
  else if decide (v < 20000) then 10
  else if decide (v = 35000) then 15
  else if decide (v = 110000) then 20
  else if decide (v ∈ [150000; 220000]) then 25
  else if decide (v ∈ [330000; 400000; 500000]) then 30
  else if decide (v = 750000) then 40
  else if decide (v = 1150000) then 55
  else 20.

(** [m] is the greatest element of [vs]. *)
Definition is_maximum (m : Z) (vs : list Z) : Prop :=
  m ∈ vs ∧ ∀ v, v ∈ vs → v <= m.

(** [sep.join(tokens)] *)
Fixpoint join (sep : ascii) (tokens : list string) : string :=
  match tokens with
  | [] => ""
  | [tok] => tok
  | tok :: rest => (tok ++ String sep (join sep rest))%string
  end.

(** A float that is not a NaN compares equal to itself. *)
Definition ordered (x : float) : Prop := (x =? x)%float = true.

(** A stand-in for geopy on which the model is evaluated: degrees of
    latitude and longitude scaled to metres on a plane. *)
Definition plane_distance (a b : float * float) : float :=
  (abs (fst a - fst b) * 111000 + abs (snd a - snd b) * 70000)%float.

(** Inputs on which the statements are evaluated: a substation and a
    three-node power line near two houses, one about 7 m and one about
    108 m north of node 1; node 7 of the line is not in the node table,
    and node 3 is far from every house. *)
Definition house_near : element :=
  Element (Some "node") (Some 50.00006103515625%float) (Some 40%float) None None.
Definition house_far : element :=
  Element (Some "node") (Some 50.0009765625%float) (Some 40%float) None None.
Definition house_without_lat : element :=
  Element (Some "node") None (Some 40%float) None None.
Definition line_750kV : element :=
  Element (Some "way") None None (Some [1; 7; 2])
    (Some {[ "power" := "line"; "voltage" := "750000" ]}).
Definition sample_nodes : gmap Z (float * float) :=
  {[ 1 := (50%float, 40%float); 2 := (50%float, 40.0009765625%float);
     3 := (51%float, 41%float) ]}.
Definition sample : MapCreator :=
  {| nodes := sample_nodes;
     power_objects := [(1, "Substation")];
     ways := [line_750kV];
     residential_nodes := [house_near; house_far] |}.
Definition sample_index : rtree.Index :=
  [(0%nat, (40, 50.00006103515625, 40, 50.00006103515625)%float);
   (1%nat, (40, 50.0009765625, 40, 50.0009765625)%float)].

(* ===================================================================== *)
(** ** [OverpassAPI] and the request handler

    The requests to the Overpass service are outside the program: the
    elements of a response ([response.json()['elements']]) are inputs of
    the model. *)

(** [str] methods, on ASCII text. *)
Module PyStr.

Definition upper_char (c : ascii) : ascii :=
  let n := N_of_ascii c in
  if ((97 <=? n) && (n <=? 122))%N then ascii_of_N (n - 32) else c.

Definition lower_char (c : ascii) : ascii :=
  let n := N_of_ascii c in
  if ((65 <=? n) && (n <=? 90))%N then ascii_of_N (n + 32) else c.

Fixpoint lower (s : string) : string :=
  match s with
  | EmptyString => EmptyString
  | String c rest => String (lower_char c) (lower rest)
  end.

(** [s.capitalize()]: the first character in upper case, the others in
    lower case. *)
Definition capitalize (s : string) : string :=
  match s with
  | EmptyString => EmptyString
  | String c rest => String (upper_char c) (lower rest)
  end.

End PyStr.

(** An element of a response with its [id] key; [re_keys] holds the other
    keys the code reads. *)
Record response_element : Type := {
  re_id : option Z;
  re_keys : element;
}.

Module OverpassAPI.

(** The four collections of an [OverpassAPI] object. Its [city] and
    [overpass_url] only enter the text of the requests. *)
Record t : Type := {
  nodes : gmap Z (float * float);
  power_objects : list (Z * string);
  ways : list element;
  residential_nodes : list element;
}.

(** [__init__] *)
Definition init : t :=
  {| nodes := ∅; power_objects := []; ways := []; residential_nodes := [] |}.

(** Lines 45-53: one element of the response of [fetch_power_objects].
    In [self.nodes[element['id']] = (element['lat'], element['lon'])] the
    right-hand side is evaluated first. A way is stored by the keys read
    from it later. *)
Definition store_element (element : response_element) (self : t) : result t :=
  let keys := re_keys element in
  type ← el_getitem "type" (el_type keys);
  if String.eqb type "node" then
    lat ← el_getitem "lat" (el_lat keys);
    lon ← el_getitem "lon" (el_lon keys);
    id ← el_getitem "id" (re_id element);
    let tags := default ∅ (el_tags keys) in
    let towers :=
      if bool_decide (is_Some (tags !! "man_made"))
         && bool_decide (tags !! "tower:type" = Some "communication")
      then power_objects self ++ [(id, "Communication Tower")]
      else power_objects self in
    let powers :=
      match tags !! "power" with
      | Some power => towers ++ [(id, PyStr.capitalize power)]
      | None => towers
      end in
    Ok {| nodes := <[id := (lat, lon)]> (nodes self);
          power_objects := powers;
          ways := ways self;
          residential_nodes := residential_nodes self |}
  else if String.eqb type "way" then
    Ok {| nodes := nodes self;
          power_objects := power_objects self;
          ways := ways self ++ [keys];
          residential_nodes := residential_nodes self |}
  else Ok self.

(** Lines 44-53: the element loop of [fetch_power_objects]. *)
Definition fetch_power_objects (elements : list response_element) (self : t)
  : result t :=
  for_each elements store_element self.

(** Lines 73-76: the element loop of [fetch_buildings]. *)
Definition fetch_buildings (elements : list response_element) (self : t)
  : result t :=
  residential ← fetch_buildings_elements (map re_keys elements)
                  (residential_nodes self);
  Ok {| nodes := nodes self;
        power_objects := power_objects self;
        ways := ways self;
        residential_nodes := residential |}.

End OverpassAPI.

(** [MapCreator(overpass_api.nodes, overpass_api.power_objects,
    overpass_api.ways, overpass_api.residential_nodes)] *)
Definition map_creator_of (api : OverpassAPI.t) : MapCreator :=
  {| nodes := OverpassAPI.nodes api;
     power_objects := OverpassAPI.power_objects api;
     ways := OverpassAPI.ways api;
     residential_nodes := OverpassAPI.residential_nodes api |}.

(** The keys of [options], in the order of the dict literal. *)
Definition option_keys : list string :=
  ["power_line"; "communication_tower"; "substation"; "transformer";
   "converter"].

(** Lines 196-206: the options read from the request. *)
Definition read_options (method : string) (form : gmap string string)
  : list (string * bool) :=
  map (fun key =>
         (key, if String.eqb method "POST"
               then bool_decide (is_Some (form !! key)) else false))
      option_keys.

(** [any(options.values())] *)
Definition any_option (options : list (string * bool)) : bool :=
  existsb snd options.

(** The default city of line 195. *)
Definition default_city : string := "Волгоград".

Section Handler.

Variable geodesic : float * float -> float * float -> float.

(** The elements the service answers to the request of
    [fetch_power_objects], whose text is built from the city and the
    options, and to the request of [fetch_buildings], built from the
    city. *)
Variable power_response : string -> list (string * bool) -> list response_element.
Variable buildings_response : string -> list response_element.

(** Lines 195-214 of [index]: the map that is saved. *)
Definition index (method : string) (form : gmap string string) : result Map :=
  let city := if String.eqb method "POST"
              then default default_city (form !! "city") else default_city in
  let options := read_options method form in
  overpass_api ←
    OverpassAPI.fetch_power_objects (power_response city options)
      OverpassAPI.init;
  overpass_api ←
    (if any_option options
     then OverpassAPI.fetch_buildings (buildings_response city) overpass_api
     else Ok overpass_api);
  create_map_optimized geodesic (map_creator_of overpass_api).

End Handler.

(** The kinds of children of a map. *)
Definition is_circle (c : child) : bool :=
  match c with CircleMarker _ _ _ _ _ _ => true | _ => false end.
Definition is_warning (c : child) : bool :=
  match c with Marker _ _ _ => true | _ => false end.
Definition is_polyline (c : child) : bool :=
  match c with PolyLine _ _ _ _ => true | _ => false end.

(** The circle drawn for a point object at [p] (lines 109-116). *)
Definition circle_of (p : float * float) (type_ : string) : child :=
  CircleMarker p 10 (default "gray" (colors !! type_)) true
    (default "gray" (colors !! type_)) type_.

(** The line drawn for a way (line 188). *)
Definition polyline_of (self : MapCreator) (way_nodes : list Z) : child :=
  PolyLine (omap (fun node_id => nodes self !! node_id) way_nodes) "blue" 2.5 1.

(** [c] is the warning marker of a residential record within [threshold]
    of the point [p]. *)
Definition point_hit_justified
    (geodesic : float * float -> float * float -> float) (self : MapCreator)
    (p : float * float) (threshold : Z) (c : child) : Prop :=
  exists res_node res,
    res_node ∈ residential_nodes self /\ coords res_node = Some res /\
    (geodesic p res <=? Py.float_of_int threshold)%float = true /\
    c = hit_marker res "Residential Building near Power Object".

(** [c] is the warning marker of a residential record for which the
    smaller of the distances to the two ends of a segment of [way] is
    within the thickness of the way. *)
Definition line_hit_justified
    (geodesic : float * float -> float * float -> float) (self : MapCreator)
    (way : element) (start_point end_point : float * float) (c : child)
  : Prop :=
  exists res_node res,
    res_node ∈ residential_nodes self /\ coords res_node = Some res /\
    (Py.fmin (geodesic start_point res) (geodesic end_point res)
     <=? Py.float_of_int (get_thickness (way_voltage way)))%float = true /\
    c = hit_marker res "Residential Building near Power Line".

(** A warning marker of the map is owed to a point object or to a segment
    of a way of the input. *)
Definition hit_justified
    (geodesic : float * float -> float * float -> float) (self : MapCreator)
    (c : child) : Prop :=
  (exists node_id type_ p threshold,
     (node_id, type_) ∈ power_objects self /\
     nodes self !! node_id = Some p /\
     distances !! type_ = Some threshold /\
     point_hit_justified geodesic self p threshold c) \/
  (exists way way_nodes i start_point end_point,
     way ∈ ways self /\ el_nodes way = Some way_nodes /\
     resolve_points self way_nodes !! i = Some start_point /\
     resolve_points self way_nodes !! (i + 1)%nat = Some end_point /\
     line_hit_justified geodesic self way start_point end_point c).

(** A way that has a [nodes] key and at least one node in the node table:
    its line has a vertex. *)
Definition way_drawable (self : MapCreator) (way : element) : Prop :=
  exists way_nodes node_id,
    el_nodes way = Some way_nodes /\ node_id ∈ way_nodes /\
    is_Some (nodes self !! node_id).

(** The exceptions [create_map_optimized] can raise on [self]: a missing
    key, or the [ValueError] of the line of a way none of whose nodes is
    in the node table. *)
Definition run_error (self : MapCreator) (e : exn) : Prop :=
  (exists res_node, res_node ∈ residential_nodes self /\
     (el_lat res_node = None /\ e = KeyError "lat" \/
      el_lon res_node = None /\ e = KeyError "lon")) \/
  (exists node_id type_, (node_id, type_) ∈ power_objects self /\
     (nodes self !! node_id = None /\ e = KeyErrorId node_id \/
      (type_ ∉ recognized_kinds) /\ e = KeyError type_)) \/
  (exists way, way ∈ ways self /\
     (el_nodes way = None /\ e = KeyError "nodes" \/
      (exists way_nodes, el_nodes way = Some way_nodes /\
                         resolve_points self way_nodes = []) /\
      e = ValueError)).

(** A response on which the element loops are evaluated: a communication
    tower, a substation, a pole, the 750 kV line and a second element for
    node 1. *)
Definition tower_element : response_element :=
  {| re_id := Some 1;
     re_keys := Element (Some "node") (Some 50%float) (Some 40%float) None
                  (Some {[ "man_made" := "tower";
                           "tower:type" := "communication" ]}) |}.
Definition substation_element : response_element :=
  {| re_id := Some 2;
     re_keys := Element (Some "node") (Some 50%float)
                  (Some 40.0009765625%float) None
                  (Some {[ "power" := "SUBSTATION" ]}) |}.
Definition pole_element : response_element :=
  {| re_id := Some 3;
     re_keys := Element (Some "node") (Some 51%float) (Some 41%float) None
                  (Some {[ "power" := "pole" ]}) |}.
Definition way_element : response_element :=
  {| re_id := Some 10; re_keys := line_750kV |}.
Definition moved_element : response_element :=
  {| re_id := Some 1;
     re_keys := Element (Some "node") (Some 50.5%float) (Some 40.5%float)
                  None None |}.
Definition sample_response : list response_element :=
  [tower_element; substation_element; way_element; moved_element;
   pole_element].

(** [c in s] for a character. *)
Fixpoint has_char (c : ascii) (s : string) : bool :=
  match s with
  | EmptyString => false
  | String d rest => Ascii.eqb d c || has_char c rest
  end.

(* ===================================================================== *)
(** ** The loop combinator *)

Lemma bind_Ok {A B} (r : result A) (k : A -> result B) a :
  r = Ok a -> (r ≫= k) = k a.
Proof. intros ->; reflexivity. Qed.

Lemma bind_Raise {A B} (r : result A) (k : A -> result B) e :
  r = Raise e -> (r ≫= k) = Raise e.
Proof. intros ->; reflexivity. Qed.

Lemma for_each_app {A S} (xs ys : list A) (body : A -> S -> result S) s :
  for_each (xs ++ ys) body s = (for_each xs body s ≫= for_each ys body).
Proof.
  revert s; induction xs as [|x xs IH]; intros s; simpl; [reflexivity|].
  destruct (body x s) as [s'|e]; simpl; [apply IH | reflexivity].
Qed.

Lemma add_all_nil m : add_all [] m = m.
Proof. destruct m; unfold add_all; simpl; rewrite app_nil_r; reflexivity. Qed.

Lemma add_all_app cs ds m : add_all ds (add_all cs m) = add_all (cs ++ ds) m.
Proof. unfold add_all; simpl; rewrite app_assoc; reflexivity. Qed.

Lemma add_to_add_all c m : add_to c m = add_all [c] m.
Proof. reflexivity. Qed.

(** A loop whose body only ever adds children adds their concatenation. *)
Lemma for_each_emit {A} (xs : list A) (body : A -> Map -> result Map)
    (outs : list (list child)) :
  Forall2 (fun x out => forall m, body x m = Ok (add_all out m)) xs outs ->
  forall m, for_each xs body m = Ok (add_all (concat outs) m).
Proof.
  induction 1 as [|x out xs outs Hx _ IH]; intros m; simpl.
  - rewrite add_all_nil; reflexivity.
  - rewrite Hx; simpl. rewrite IH, add_all_app; reflexivity.
Qed.

(** A loop stops at the first element whose body raises. *)
Lemma for_each_raise {A S} (xs : list A) (body : A -> S -> result S) x e s :
  (forall s', body x s' = Raise e) ->
  for_each (x :: xs) body s = Raise e.
Proof. intros H; simpl; rewrite H; reflexivity. Qed.

Lemma Forall_exists_Forall2 {A B} (P : A -> B -> Prop) (xs : list A) :
  Forall (fun x => exists y, P x y) xs -> exists ys, Forall2 P xs ys.
Proof.
  induction 1 as [|x xs [y Hy] _ [ys IH]].
  - exists []; constructor.
  - exists (y :: ys); constructor; assumption.
Qed.

(* ===================================================================== *)
(** ** The residential index *)

Lemma elem_of_enumerate_from {A} (xs : list A) start pos x :
  (pos, x) ∈ Py.enumerate_from start xs <->
  (start <= pos)%nat /\ xs !! (pos - start)%nat = Some x.
Proof.
  revert start; induction xs as [|y ys IH]; intros start; simpl.
  - rewrite elem_of_nil. split; [tauto | intros [_ H]; discriminate].
  - rewrite elem_of_cons, IH. split.
    + intros [Heq | [Hle Hl]].
      * inversion Heq; subst. rewrite Nat.sub_diag. split; [lia | reflexivity].
      * split; [lia|]. replace (pos - start)%nat with (S (pos - S start)) by lia.
        exact Hl.
    + intros [Hle Hl]. destruct (decide (pos = start)) as [->|Hne].
      * rewrite Nat.sub_diag in Hl. simpl in Hl. left; congruence.
      * right. split; [lia|].
        replace (pos - start)%nat with (S (pos - S start)) in Hl by lia.
        exact Hl.
Qed.

Lemma insert_residential_coords pos e acc :
  insert_residential (pos, e) acc =
    match coords e with
    | Some (lat, lon) => Ok (acc ++ [(pos, (lon, lat, lon, lat))])
    | None => Raise (KeyError (if el_lat e is Some _ then "lon" else "lat"))
    end.
Proof.
  unfold insert_residential, coords.
  destruct (el_lat e) as [lat|]; simpl; [|reflexivity].
  destruct (el_lon e) as [lon|]; reflexivity.
Qed.

Lemma build_index_loop_ok xs : forall start acc,
  Forall (fun e => is_Some (coords e)) xs ->
  for_each (Py.enumerate_from start xs) insert_residential acc
  = Ok (acc ++ omap index_item (Py.enumerate_from start xs)).
Proof.
  induction xs as [|e xs IH]; intros start acc Hall.
  - simpl. rewrite app_nil_r; reflexivity.
  - inversion Hall as [|? ? [[lat lon] Hc] Hrest]; subst.
    cbn [Py.enumerate_from for_each omap list_omap].
    rewrite insert_residential_coords.
    unfold index_item at 1. cbn [snd fst]. rewrite Hc. cbn.
    rewrite IH by assumption. rewrite <- app_assoc; reflexivity.
Qed.

Lemma build_index_loop_raise xs : forall start acc,
  ~ Forall (fun e => is_Some (coords e)) xs ->
  exists key, key ∈ ["lat"; "lon"] /\
    for_each (Py.enumerate_from start xs) insert_residential acc
    = Raise (KeyError key).
Proof.
  induction xs as [|e xs IH]; intros start acc Hnot.
  - exfalso; apply Hnot; constructor.
  - cbn [Py.enumerate_from for_each]. rewrite insert_residential_coords.
    destruct (coords e) as [[lat lon]|] eqn:Hc.
    + cbn. apply IH. intros Hall; apply Hnot; constructor; [eauto | assumption].
    + simpl. destruct (el_lat e); eexists; (split; [|reflexivity]); set_solver.
Qed.

Lemma build_index_Ok_inv residential res_index :
  build_index residential = Ok res_index ->
  Forall (fun e => is_Some (coords e)) residential /\
  res_index = omap index_item (Py.enumerate residential).
Proof.
  unfold build_index, Py.enumerate. intros H.
  destruct (decide (Forall (fun e => is_Some (coords e)) residential)) as [Hall|Hnot].
  - split; [assumption|].
    rewrite (build_index_loop_ok _ 0%nat rtree.empty Hall) in H.
    inversion H; reflexivity.
  - destruct (build_index_loop_raise _ 0%nat rtree.empty Hnot) as (key & _ & Hr).
    rewrite Hr in H; discriminate.
Qed.

(** What [intersection] returns on an index built by [build_index]. *)
Lemma elem_of_intersection_built residential res_index box pos :
  build_index residential = Ok res_index ->
  pos ∈ rtree.intersection res_index box <->
  exists e lat lon,
    residential !! pos = Some e /\ el_lat e = Some lat /\ el_lon e = Some lon /\
    rtree.intersects (lon, lat, lon, lat) box = true.
Proof.
  intros Hb. apply build_index_Ok_inv in Hb as [_ ->].
  unfold rtree.intersection. rewrite list_elem_of_fmap. split.
  - intros ([pos' b] & -> & Hin). simpl.
    apply list_elem_of_In, filter_In in Hin as [Hin Hint].
    apply list_elem_of_In, list_elem_of_omap in Hin as ([p e] & Hp & Hitem).
    apply elem_of_enumerate_from in Hp as [_ Hl]. rewrite Nat.sub_0_r in Hl.
    unfold index_item, coords in Hitem; simpl in Hitem.
    destruct (el_lat e) as [lat|] eqn:Hlat; [|discriminate].
    destruct (el_lon e) as [lon|] eqn:Hlon; [|discriminate].
    simpl in Hitem. inversion Hitem; subst. simpl in Hint.
    exists e, lat, lon. auto.
  - intros (e & lat & lon & Hl & Hlat & Hlon & Hint).
    exists (pos, (lon, lat, lon, lat)). split; [reflexivity|].
    apply list_elem_of_In, filter_In. split; [|exact Hint].
    apply list_elem_of_In, list_elem_of_omap. exists (pos, e). split.
    + apply elem_of_enumerate_from. rewrite Nat.sub_0_r. split; [lia | exact Hl].
    + unfold index_item, coords; simpl. rewrite Hlat, Hlon. reflexivity.
Qed.

(** rtree finds every indexed point that lies in the query box. *)
Lemma point_in_box_intersects lon lat minx miny maxx maxy :
  (minx <=? lon)%float = true -> (lon <=? maxx)%float = true ->
  (miny <=? lat)%float = true -> (lat <=? maxy)%float = true ->
  rtree.intersects (lon, lat, lon, lat) (minx, miny, maxx, maxy) = true.
Proof. intros H1 H2 H3 H4. unfold rtree.intersects. rewrite H1, H2, H3, H4. reflexivity. Qed.

(** C5. The index has no false negatives: whatever the residential
    records the index is built from and whatever the query box, a record
    whose (lon, lat) lies in the box, borders included, has its position in
    the result of the query. *)
Theorem index_no_false_negatives
    (residential : list element) (res_index : rtree.Index)
    (pos : nat) (e : element) (lat lon minx miny maxx maxy : float) :
  build_index residential = Ok res_index ->
  residential !! pos = Some e ->
  el_lat e = Some lat -> el_lon e = Some lon ->
  (minx <=? lon)%float = true -> (lon <=? maxx)%float = true ->
  (miny <=? lat)%float = true -> (lat <=? maxy)%float = true ->
  pos ∈ rtree.intersection res_index (minx, miny, maxx, maxy).
Proof.
  intros Hb Hl Hlat Hlon H1 H2 H3 H4.
  apply (elem_of_intersection_built residential); [assumption|].
  exists e, lat, lon. repeat split; try assumption.
  apply point_in_box_intersects; assumption.
Qed.

Lemma index_no_false_negatives_witness :
  build_index (residential_nodes sample) = Ok sample_index /\
  1%nat ∈ rtree.intersection sample_index (39.5, 50, 40, 51)%float.
Proof.
  split; [reflexivity|].
  apply (index_no_false_negatives (residential_nodes sample) sample_index
           1 house_far 50.0009765625 40 39.5 50 40 51); reflexivity.
Defined.

(* ===================================================================== *)
(** ** The threshold table *)

Lemma distances_lookup_Some kind threshold :
  distances !! kind = Some threshold <->
  (kind, threshold) ∈ [("Communication Tower", 45); ("Substation", 10);
                       ("Transformer", 10); ("Converter", 10)].
Proof.
  unfold distances. symmetry. apply elem_of_list_to_map. compute_done.
Qed.

Lemma distances_lookup_None kind :
  distances !! kind = None <-> kind ∉ recognized_kinds.
Proof.
  unfold distances. rewrite <- not_elem_of_list_to_map. reflexivity.
Qed.

Lemma colors_lookup_None kind :
  kind ∉ recognized_kinds -> colors !! kind = None.
Proof.
  intros H. unfold colors. apply not_elem_of_list_to_map. cbn.
  unfold recognized_kinds in H. rewrite !elem_of_cons, elem_of_nil in *. tauto.
Qed.

Lemma power_line_not_in_distances : distances !! "power_line" = None.
Proof. apply distances_lookup_None. compute_done. Qed.

Lemma line_threshold_id thickness : line_threshold thickness = thickness.
Proof.
  unfold line_threshold. rewrite power_line_not_in_distances. simpl. lia.
Qed.

(* ===================================================================== *)
(** ** One candidate *)

Section Candidates.

Variable geodesic : float * float -> float * float -> float.
Variable self : MapCreator.

(** The candidates of a built index are positions of records with both
    coordinates. *)
Lemma candidates_resolve res_index box :
  build_index (residential_nodes self) = Ok res_index ->
  Forall (fun idx => exists res_node res_lat res_lon,
            residential_nodes self !! idx = Some res_node /\
            el_lat res_node = Some res_lat /\ el_lon res_node = Some res_lon)
         (rtree.intersection res_index box).
Proof.
  intros Hb. apply Forall_forall. intros idx Hin.
  apply (elem_of_intersection_built _ _ _ _ Hb) in Hin
    as (e & lat & lon & ? & ? & ? & _).
  exists e, lat, lon. auto.
Qed.

Lemma check_point_candidate_known type_ threshold lat lon idx
    res_node res_lat res_lon map_osm :
  residential_nodes self !! idx = Some res_node ->
  el_lat res_node = Some res_lat -> el_lon res_node = Some res_lon ->
  distances !! type_ = Some threshold ->
  check_point_candidate geodesic self type_ lat lon idx map_osm =
  Ok (add_all
        (if Py.le_float_int (geodesic (lat, lon) (res_lat, res_lon)) threshold
         then [hit_marker (res_lat, res_lon)
                 "Residential Building near Power Object"]
         else []) map_osm).
Proof.
  intros Hl Hlat Hlon Hd. unfold check_point_candidate, list_getitem, getitem.
  rewrite Hl; cbn -[distances]. rewrite Hlat; cbn -[distances].
  rewrite Hlon; cbn -[distances]. rewrite Hd; cbn.
  match goal with |- context [if ?b then _ else _] => destruct b end;
    [reflexivity|].
  rewrite add_all_nil; reflexivity.
Qed.

Lemma check_point_candidate_unknown type_ lat lon idx
    res_node res_lat res_lon map_osm :
  residential_nodes self !! idx = Some res_node ->
  el_lat res_node = Some res_lat -> el_lon res_node = Some res_lon ->
  distances !! type_ = None ->
  check_point_candidate geodesic self type_ lat lon idx map_osm =
  Raise (KeyError type_).
Proof.
  intros Hl Hlat Hlon Hd. unfold check_point_candidate, list_getitem, getitem.
  rewrite Hl; cbn -[distances]. rewrite Hlat; cbn -[distances].
  rewrite Hlon; cbn -[distances]. rewrite Hd; cbn.
  reflexivity.
Qed.

Lemma check_line_candidate_known way start_point end_point idx
    res_node res_lat res_lon map_osm :
  residential_nodes self !! idx = Some res_node ->
  el_lat res_node = Some res_lat -> el_lon res_node = Some res_lon ->
  check_line_candidate geodesic self way start_point end_point idx map_osm =
  Ok (add_all
        (if Py.le_float_int
              (Py.fmin (geodesic start_point (res_lat, res_lon))
                       (geodesic end_point (res_lat, res_lon)))
              (line_threshold (get_thickness (way_voltage way)))
         then [hit_marker (res_lat, res_lon)
                 "Residential Building near Power Line"]
         else []) map_osm).
Proof.
  intros Hl Hlat Hlon. unfold check_line_candidate, list_getitem.
  rewrite Hl; cbn. rewrite Hlat; cbn. rewrite Hlon; cbn.
  match goal with |- context [if ?b then _ else _] => destruct b end;
    [reflexivity|].
  rewrite add_all_nil; reflexivity.
Qed.

End Candidates.

(* ===================================================================== *)
(** ** [min] on floats *)

Lemma SFcompare_swap x y :
  SFcompare y x = option_map CompOpp (SFcompare x y).
Proof.
  destruct x as [sx|sx| |sx mx ex], y as [sy|sy| |sy my ey]; cbn;
    try reflexivity;
    try (destruct sx; reflexivity); try (destruct sy; reflexivity);
    try (destruct sx, sy; reflexivity).
  destruct sx, sy; try reflexivity;
    rewrite (Z.compare_antisym ey ex);
    destruct (ey ?= ex)%Z; cbn; try reflexivity;
    change (Pos.compare_cont Eq my mx) with (my ?= mx)%positive;
    change (Pos.compare_cont Eq mx my) with (mx ?= my)%positive;
    rewrite (Pos.compare_antisym my mx);
    destruct (my ?= mx)%positive; reflexivity.
Qed.

Lemma ordered_compare x y :
  ordered x -> ordered y ->
  exists c, SFcompare (Prim2SF x) (Prim2SF y) = Some c.
Proof.
  unfold ordered. rewrite !FloatAxioms.eqb_spec. unfold SFeqb.
  destruct (Prim2SF x) as [sx|sx| |sx mx ex], (Prim2SF y) as [sy|sy| |sy my ey];
    cbn; intros Hx Hy; try discriminate; eauto.
Qed.

Lemma leb_refl x : ordered x -> (x <=? x)%float = true.
Proof.
  unfold ordered. rewrite FloatAxioms.eqb_spec, leb_spec. unfold SFeqb, SFleb.
  destruct (SFcompare _ _) as [[| |]|]; congruence.
Qed.

Lemma ltb_leb x y : (x <? y)%float = true -> (x <=? y)%float = true.
Proof.
  rewrite ltb_spec, leb_spec. unfold SFltb, SFleb.
  destruct (SFcompare _ _) as [[| |]|]; congruence.
Qed.

Lemma not_ltb_leb x y :
  ordered x -> ordered y -> (y <? x)%float = false -> (x <=? y)%float = true.
Proof.
  intros Hx Hy. rewrite ltb_spec, leb_spec. unfold SFltb, SFleb.
  rewrite (SFcompare_swap (Prim2SF x) (Prim2SF y)).
  destruct (ordered_compare x y Hx Hy) as [c ->]. destruct c; cbn; congruence.
Qed.

(** On floats that are not NaN, [min(a, b)] is one of the two and is
    below both. *)
Lemma fmin_is_minimum a b :
  (Py.fmin a b = a \/ Py.fmin a b = b) /\
  (ordered a -> ordered b ->
   (Py.fmin a b <=? a)%float = true /\ (Py.fmin a b <=? b)%float = true).
Proof.
  unfold Py.fmin. destruct (b <? a)%float eqn:Hlt.
  - split; [right; reflexivity|]. intros Ha Hb.
    split; [apply ltb_leb; assumption | apply leb_refl; assumption].
  - split; [left; reflexivity|]. intros Ha Hb.
    split; [apply leb_refl; assumption | apply not_ltb_leb; assumption].
Qed.

(* ===================================================================== *)
(** ** The point pass *)

(** The candidates of one query, each with what its loop body adds. *)
Lemma candidates_emit (self : MapCreator) (res_index : rtree.Index)
    (box : rtree.bbox) (body : nat -> Map -> result Map)
    (out_of : float * float -> list child) :
  build_index (residential_nodes self) = Ok res_index ->
  (forall idx res_node res_lat res_lon m,
     residential_nodes self !! idx = Some res_node ->
     el_lat res_node = Some res_lat -> el_lon res_node = Some res_lon ->
     body idx m = Ok (add_all (out_of (res_lat, res_lon)) m)) ->
  exists emitted : list (list child),
    Forall2 (fun idx out => exists res_node res_lat res_lon,
               residential_nodes self !! idx = Some res_node /\
               el_lat res_node = Some res_lat /\
               el_lon res_node = Some res_lon /\
               out = out_of (res_lat, res_lon))
            (rtree.intersection res_index box) emitted /\
    forall m, for_each (rtree.intersection res_index box) body m
              = Ok (add_all (concat emitted) m).
Proof.
  intros Hb Hbody.
  destruct (Forall_exists_Forall2
              (fun idx out => exists res_node res_lat res_lon,
                 residential_nodes self !! idx = Some res_node /\
                 el_lat res_node = Some res_lat /\
                 el_lon res_node = Some res_lon /\
                 out = out_of (res_lat, res_lon))
              (rtree.intersection res_index box)) as [emitted Hem].
  { eapply Forall_impl; [apply candidates_resolve; eassumption|].
    intros idx (e & lat & lon & ? & ? & ?). cbn. eauto 10. }
  exists emitted. split; [exact Hem|].
  apply for_each_emit. eapply Forall2_impl; [exact Hem|].
  intros idx out (e & lat & lon & ? & ? & ? & ->) m. eauto.
Qed.

(** C4. Point pass: for a point object of a recognised kind, whose
    threshold is the one of the fixed table (Communication Tower 45,
    Substation 10, Transformer 10, Converter 10), the object is processed
    without error, and each candidate of the padded box query adds a
    warning marker exactly when its geodesic distance to the object is at
    most the threshold. *)
Theorem point_pass_hit_iff
    (geodesic : float * float -> float * float -> float)
    (self : MapCreator) (res_index : rtree.Index)
    (node_id : Z) (type_ : string) (threshold : Z) (lat lon : float)
    (map_osm : Map) :
  build_index (residential_nodes self) = Ok res_index ->
  nodes self !! node_id = Some (lat, lon) ->
  (type_, threshold) ∈ [("Communication Tower", 45); ("Substation", 10);
                        ("Transformer", 10); ("Converter", 10)] ->
  exists emitted : list (list child),
    Forall2 (fun idx out => exists res_node res_lat res_lon,
               residential_nodes self !! idx = Some res_node /\
               el_lat res_node = Some res_lat /\
               el_lon res_node = Some res_lon /\
               out = if (geodesic (lat, lon) (res_lat, res_lon)
                         <=? Py.float_of_int threshold)%float
                     then [hit_marker (res_lat, res_lon)
                             "Residential Building near Power Object"]
                     else [])
            (rtree.intersection res_index (point_box lat lon)) emitted /\
    process_power_object geodesic self res_index (node_id, type_) map_osm =
    Ok (add_all (CircleMarker (lat, lon) 10 (default "gray" (colors !! type_))
                   true (default "gray" (colors !! type_)) type_
                 :: concat emitted) map_osm).
Proof.
  intros Hb Hnode Hkind. apply distances_lookup_Some in Hkind.
  destruct (candidates_emit self res_index (point_box lat lon)
              (check_point_candidate geodesic self type_ lat lon)
              (fun res => if (geodesic (lat, lon) res
                              <=? Py.float_of_int threshold)%float
                          then [hit_marker res
                                  "Residential Building near Power Object"]
                          else []) Hb) as (emitted & Hem & Hrun).
  { intros idx e res_lat res_lon m Hl Hlat Hlon.
    apply (check_point_candidate_known geodesic self type_ threshold lat lon
             idx e res_lat res_lon m Hl Hlat Hlon Hkind). }
  exists emitted. split; [exact Hem|].
  unfold process_power_object. rewrite Hnode. cbn -[colors].
  fold (point_box lat lon). rewrite Hrun, add_to_add_all, add_all_app.
  reflexivity.
Qed.

Lemma point_pass_hit_iff_witness :
  exists emitted : list (list child),
    Forall2 (fun idx out => exists res_node res_lat res_lon,
               residential_nodes sample !! idx = Some res_node /\
               el_lat res_node = Some res_lat /\
               el_lon res_node = Some res_lon /\
               out = if (plane_distance (50, 40)%float (res_lat, res_lon)
                         <=? Py.float_of_int 10)%float
                     then [hit_marker (res_lat, res_lon)
                             "Residential Building near Power Object"]
                     else [])
            (rtree.intersection sample_index (point_box 50 40)) emitted /\
    process_power_object plane_distance sample sample_index (1, "Substation")
      {| zoom_start := 12; children := [] |} =
    Ok (add_all (CircleMarker (50, 40)%float 10
                   (default "gray" (colors !! "Substation"))
                   true (default "gray" (colors !! "Substation")) "Substation"
                 :: concat emitted) {| zoom_start := 12; children := [] |}).
Proof.
  apply (point_pass_hit_iff plane_distance sample sample_index 1 "Substation"
           10 50 40 {| zoom_start := 12; children := [] |}).
  - reflexivity.
  - reflexivity.
  - apply list_elem_of_In. vm_compute. right; left; reflexivity.
Defined.

(* ===================================================================== *)
(** ** The line pass *)

(** What one candidate of a segment adds. *)
Lemma segment_emit
    (geodesic : float * float -> float * float -> float)
    (self : MapCreator) (res_index : rtree.Index) (way : element)
    (points : list (float * float)) (i : nat)
    (start_point end_point : float * float) :
  build_index (residential_nodes self) = Ok res_index ->
  points !! i = Some start_point -> points !! (i + 1)%nat = Some end_point ->
  exists emitted : list (list child),
    Forall2 (fun idx out => exists res_node res_lat res_lon,
               residential_nodes self !! idx = Some res_node /\
               el_lat res_node = Some res_lat /\
               el_lon res_node = Some res_lon /\
               out = if (Py.fmin (geodesic start_point (res_lat, res_lon))
                                 (geodesic end_point (res_lat, res_lon))
                         <=? Py.float_of_int
                               (line_threshold
                                  (get_thickness (way_voltage way))))%float
                     then [hit_marker (res_lat, res_lon)
                             "Residential Building near Power Line"]
                     else [])
            (rtree.intersection res_index (segment_box start_point end_point))
            emitted /\
    forall m, process_segment geodesic self res_index way points i m =
              Ok (add_all (concat emitted) m).
Proof.
  intros Hb Hs He.
  destruct (candidates_emit self res_index (segment_box start_point end_point)
              (check_line_candidate geodesic self way start_point end_point)
              (fun res => if (Py.fmin (geodesic start_point res)
                                      (geodesic end_point res)
                              <=? Py.float_of_int
                                    (line_threshold
                                       (get_thickness (way_voltage way))))%float
                          then [hit_marker res
                                  "Residential Building near Power Line"]
                          else []) Hb) as (emitted & Hem & Hrun).
  { intros idx e res_lat res_lon m Hl Hlat Hlon.
    apply (check_line_candidate_known geodesic self way start_point end_point
             idx e res_lat res_lon m Hl Hlat Hlon). }
  exists emitted. split; [exact Hem|]. intros m.
  unfold process_segment, list_getitem. rewrite Hs, He. cbn [mbind result_bind].
  apply Hrun.
Qed.

(** C1. Line pass: for a segment of a polyline and each candidate of its
    box query, the distance compared with the threshold is the minimum of
    the two geodesic distances from the residential point to the ends of
    the segment (one of the two, and at most both when neither is a NaN),
    and a warning marker is added exactly when that minimum is at most the
    threshold. *)
Theorem line_pass_hit_iff
    (geodesic : float * float -> float * float -> float)
    (self : MapCreator) (res_index : rtree.Index) (way : element)
    (points : list (float * float)) (i : nat)
    (start_point end_point : float * float) (map_osm : Map) :
  build_index (residential_nodes self) = Ok res_index ->
  points !! i = Some start_point -> points !! (i + 1)%nat = Some end_point ->
  exists emitted : list (list child),
    Forall2 (fun idx out => exists res_node res_lat res_lon,
               residential_nodes self !! idx = Some res_node /\
               el_lat res_node = Some res_lat /\
               el_lon res_node = Some res_lon /\
               let to_start := geodesic start_point (res_lat, res_lon) in
               let to_end := geodesic end_point (res_lat, res_lon) in
               let distance := Py.fmin to_start to_end in
               (distance = to_start \/ distance = to_end) /\
               (ordered to_start -> ordered to_end ->
                (distance <=? to_start)%float = true /\
                (distance <=? to_end)%float = true) /\
               out = if (distance
                         <=? Py.float_of_int
                               (line_threshold
                                  (get_thickness (way_voltage way))))%float
                     then [hit_marker (res_lat, res_lon)
                             "Residential Building near Power Line"]
                     else [])
            (rtree.intersection res_index (segment_box start_point end_point))
            emitted /\
    process_segment geodesic self res_index way points i map_osm =
    Ok (add_all (concat emitted) map_osm).
Proof.
  intros Hb Hs He.
  destruct (segment_emit geodesic self res_index way points i
              start_point end_point Hb Hs He) as (emitted & Hem & Hrun).
  exists emitted. split; [|apply Hrun].
  eapply Forall2_impl; [exact Hem|].
  intros idx out (e & lat & lon & Hl & Hlat & Hlon & ->).
  exists e, lat, lon. repeat (split; [assumption|]). cbn zeta.
  destruct (fmin_is_minimum (geodesic start_point (lat, lon))
              (geodesic end_point (lat, lon))) as [Hone Hle].
  auto.
Qed.

Lemma line_pass_hit_iff_witness :
  exists emitted : list (list child),
    Forall2 (fun idx out => exists res_node res_lat res_lon,
               residential_nodes sample !! idx = Some res_node /\
               el_lat res_node = Some res_lat /\
               el_lon res_node = Some res_lon /\
               let to_start := plane_distance (50, 40)%float (res_lat, res_lon) in
               let to_end :=
                 plane_distance (50, 40.0009765625)%float (res_lat, res_lon) in
               let distance := Py.fmin to_start to_end in
               (distance = to_start \/ distance = to_end) /\
               (ordered to_start -> ordered to_end ->
                (distance <=? to_start)%float = true /\
                (distance <=? to_end)%float = true) /\
               out = if (distance
                         <=? Py.float_of_int
                               (line_threshold
                                  (get_thickness (way_voltage line_750kV))))%float
                     then [hit_marker (res_lat, res_lon)
                             "Residential Building near Power Line"]
                     else [])
            (rtree.intersection sample_index
               (segment_box (50, 40)%float (50, 40.0009765625)%float))
            emitted /\
    process_segment plane_distance sample sample_index line_750kV
      [(50, 40)%float; (50, 40.0009765625)%float] 0
      {| zoom_start := 12; children := [] |} =
    Ok (add_all (concat emitted) {| zoom_start := 12; children := [] |}).
Proof.
  apply (line_pass_hit_iff plane_distance sample sample_index line_750kV
           [(50, 40)%float; (50, 40.0009765625)%float] 0
           (50, 40)%float (50, 40.0009765625)%float
           {| zoom_start := 12; children := [] |}); reflexivity.
Defined.



(* ===================================================================== *)
(** ** Point objects of an unrecognised kind *)

Lemma process_unknown_kind
    (geodesic : float * float -> float * float -> float)
    (self : MapCreator) (res_index : rtree.Index)
    (node_id : Z) (type_ : string) (lat lon : float) (map_osm : Map) :
  build_index (residential_nodes self) = Ok res_index ->
  nodes self !! node_id = Some (lat, lon) ->
  type_ ∉ recognized_kinds ->
  process_power_object geodesic self res_index (node_id, type_) map_osm =
  match rtree.intersection res_index (point_box lat lon) with
  | [] => Ok (add_to (CircleMarker (lat, lon) 10 "gray" true "gray" type_)
                map_osm)
  | _ :: _ => Raise (KeyError type_)
  end.
Proof.
  intros Hb Hnode Hkind.
  pose proof (candidates_resolve self res_index (point_box lat lon) Hb) as Hc.
  unfold process_power_object. rewrite Hnode. cbn -[colors].
  fold (point_box lat lon). rewrite (colors_lookup_None type_ Hkind). cbn.
  destruct (rtree.intersection res_index (point_box lat lon)) as [|idx rest].
  - reflexivity.
  - inversion Hc as [|? ? (e & res_lat & res_lon & Hl & Hlat & Hlon) _]; subst.
    apply for_each_raise. intros m.
    apply (check_point_candidate_unknown geodesic self type_ lat lon idx
             e res_lat res_lon m Hl Hlat Hlon).
    apply distances_lookup_None; assumption.
Qed.

(** C9. For a point object of an unrecognised kind the threshold lookup
    fails only if the padded box query returns a candidate: with no
    candidate the object is processed to the end, its circle drawn in the
    fallback colour, and nothing is raised; with one, [KeyError] is
    raised. *)
Theorem unknown_kind_raises_iff_candidate
    (geodesic : float * float -> float * float -> float)
    (self : MapCreator) (res_index : rtree.Index)
    (node_id : Z) (type_ : string) (lat lon : float) (map_osm : Map) :
  build_index (residential_nodes self) = Ok res_index ->
  nodes self !! node_id = Some (lat, lon) ->
  type_ ∉ recognized_kinds ->
  (rtree.intersection res_index (point_box lat lon) = [] ->
   process_power_object geodesic self res_index (node_id, type_) map_osm =
   Ok (add_to (CircleMarker (lat, lon) 10 "gray" true "gray" type_) map_osm))
  /\
  (rtree.intersection res_index (point_box lat lon) <> [] ->
   process_power_object geodesic self res_index (node_id, type_) map_osm =
   Raise (KeyError type_)).
Proof.
  intros Hb Hnode Hkind.
  rewrite (process_unknown_kind geodesic self res_index node_id type_ lat lon
             map_osm Hb Hnode Hkind).
  destruct (rtree.intersection res_index (point_box lat lon)); split;
    intros H; congruence.
Qed.

Lemma unknown_kind_raises_iff_candidate_witness :
  (rtree.intersection sample_index (point_box 50 40) <> [] /\
   process_power_object plane_distance sample sample_index (1, "Tower")
     {| zoom_start := 12; children := [] |} = Raise (KeyError "Tower")) /\
  (rtree.intersection sample_index (point_box 51 41) = [] /\
   process_power_object plane_distance sample sample_index (3, "Tower")
     {| zoom_start := 12; children := [] |} =
   Ok {| zoom_start := 12;
         children := [CircleMarker (51, 41)%float 10 "gray" true
                        "gray" "Tower"] |}).
Proof.
  assert (Hk : "Tower" ∉ recognized_kinds) by compute_done.
  split.
  - assert (Hne : rtree.intersection sample_index (point_box 50 40) <> [])
      by (vm_compute; discriminate).
    split; [exact Hne|].
    exact (proj2 (unknown_kind_raises_iff_candidate plane_distance sample
                    sample_index 1 "Tower" 50 40
                    {| zoom_start := 12; children := [] |}
                    eq_refl eq_refl Hk) Hne).
  - split; [reflexivity|].
    exact (proj1 (unknown_kind_raises_iff_candidate plane_distance sample
                    sample_index 3 "Tower" 51 41
                    {| zoom_start := 12; children := [] |}
                    eq_refl eq_refl Hk) eq_refl).
Defined.

(** An exception of the point pass leaves [create_map_optimized]. *)
Lemma point_pass_raise_propagates
    (geodesic : float * float -> float * float -> float)
    (self : MapCreator) (res_index : rtree.Index) (e : exn) :
  size (nodes self) <> 0%nat ->
  build_index (residential_nodes self) = Ok res_index ->
  for_each (power_objects self) (process_power_object geodesic self res_index)
    {| zoom_start := 12; children := [] |} = Raise e ->
  create_map_optimized geodesic self = Raise e.
Proof.
  intros Hn Hb Hr. unfold create_map_optimized.
  destruct (size (nodes self)) as [|n] eqn:Hs; [congruence|].
  cbn [Nat.eqb]. rewrite Hb. cbn [mbind result_bind]. rewrite Hr. reflexivity.
Qed.

(** C6. The threshold of a kind that is not one of the four recognised
    ones is not defaulted: the lookup raises [KeyError], so does the check
    of a candidate against such an object, and the exception leaves
    [create_map_optimized]. *)
Theorem unknown_kind_lookup_raises
    (geodesic : float * float -> float * float -> float)
    (self : MapCreator) (type_ : string) :
  type_ ∉ recognized_kinds ->
  getitem distances type_ = Raise (KeyError type_) /\
  (forall lat lon idx res_node res_lat res_lon map_osm,
     residential_nodes self !! idx = Some res_node ->
     el_lat res_node = Some res_lat -> el_lon res_node = Some res_lon ->
     check_point_candidate geodesic self type_ lat lon idx map_osm =
     Raise (KeyError type_)) /\
  (forall res_index before after node_id lat lon map_osm,
     size (nodes self) <> 0%nat ->
     build_index (residential_nodes self) = Ok res_index ->
     power_objects self = before ++ (node_id, type_) :: after ->
     for_each before (process_power_object geodesic self res_index)
       {| zoom_start := 12; children := [] |} = Ok map_osm ->
     nodes self !! node_id = Some (lat, lon) ->
     rtree.intersection res_index (point_box lat lon) <> [] ->
     create_map_optimized geodesic self = Raise (KeyError type_)).
Proof.
  intros Hkind. pose proof (proj2 (distances_lookup_None type_) Hkind) as Hd.
  split; [|split].
  - unfold getitem. rewrite Hd. reflexivity.
  - intros lat lon idx e res_lat res_lon m Hl Hlat Hlon.
    apply (check_point_candidate_unknown geodesic self type_ lat lon idx
             e res_lat res_lon m Hl Hlat Hlon Hd).
  - intros res_index before after node_id lat lon m Hn Hb Hobjs Hbefore Hnode Hc.
    apply (point_pass_raise_propagates geodesic self res_index); try assumption.
    rewrite Hobjs, for_each_app, Hbefore. cbn [mbind result_bind for_each].
    rewrite (process_unknown_kind geodesic self res_index node_id type_ lat lon
               m Hb Hnode Hkind).
    destruct (rtree.intersection res_index (point_box lat lon)); [congruence|].
    reflexivity.
Qed.

Lemma unknown_kind_lookup_raises_witness :
  getitem distances "Tower" = Raise (KeyError "Tower") /\
  create_map_optimized plane_distance
    {| nodes := sample_nodes; power_objects := [(3, "Tower"); (1, "Tower")];
       ways := []; residential_nodes := [house_near; house_far] |}
  = Raise (KeyError "Tower").
Proof.
  assert (Hk : "Tower" ∉ recognized_kinds) by compute_done.
  destruct (unknown_kind_lookup_raises plane_distance
              {| nodes := sample_nodes;
                 power_objects := [(3, "Tower"); (1, "Tower")];
                 ways := []; residential_nodes := [house_near; house_far] |}
              "Tower" Hk) as (Hlookup & _ & Hrun).
  split; [exact Hlookup|].
  apply (Hrun sample_index [(3, "Tower")] [] 1 50%float 40%float
           {| zoom_start := 12;
              children := [CircleMarker (51, 41)%float 10 "gray" true "gray"
                             "Tower"] |}).
  - vm_compute. discriminate.
  - reflexivity.
  - reflexivity.
  - reflexivity.
  - reflexivity.
  - vm_compute. discriminate.
Defined.

(* ===================================================================== *)
(** ** The vertices and segments of a way *)

Lemma resolve_points_filter (self : MapCreator) (way_nodes : list Z) :
  Forall2 (fun node_id p => nodes self !! node_id = Some p)
    (filter (fun node_id => is_Some (nodes self !! node_id)) way_nodes)
    (resolve_points self way_nodes).
Proof.
  unfold resolve_points. induction way_nodes as [|node_id rest IH].
  - constructor.
  - cbn [omap list_omap]. destruct (nodes self !! node_id) as [p|] eqn:Hp.
    + rewrite filter_cons_True by (rewrite Hp; eauto).
      constructor; assumption.
    + rewrite filter_cons_False by (rewrite Hp; apply is_Some_None).
      assumption.
Qed.

Lemma range_length n : Py.range (Z.of_nat n - 1) = seq 0 (n - 1).
Proof. unfold Py.range. f_equal. lia. Qed.

(** What [process_way] does on a way with a [nodes] key: the segments of
    consecutive vertices are processed without error, then the line is
    drawn, which folium refuses when no vertex is resolved. *)
Lemma process_way_result
    (geodesic : float * float -> float * float -> float)
    (self : MapCreator) (res_index : rtree.Index) (way : element)
    (way_nodes : list Z) :
  build_index (residential_nodes self) = Ok res_index ->
  el_nodes way = Some way_nodes ->
  exists per_segment : list (list child),
    Forall2 (fun i out => exists start_point end_point,
               resolve_points self way_nodes !! i = Some start_point /\
               resolve_points self way_nodes !! (i + 1)%nat = Some end_point /\
               forall m, process_segment geodesic self res_index way
                           (resolve_points self way_nodes) i m
                         = Ok (add_all out m))
      (seq 0 (length (resolve_points self way_nodes) - 1)) per_segment /\
    forall m,
      process_way geodesic self res_index way m =
      match resolve_points self way_nodes with
      | [] => Raise ValueError
      | _ :: _ =>
          Ok (add_all (concat per_segment
                       ++ [PolyLine (resolve_points self way_nodes) "blue" 2.5 1])
                m)
      end.
Proof.
  intros Hb Hnodes. set (points := resolve_points self way_nodes).
  assert (Hseg : exists per_segment : list (list child),
     Forall2 (fun i out => exists start_point end_point,
                points !! i = Some start_point /\
                points !! (i + 1)%nat = Some end_point /\
                forall m, process_segment geodesic self res_index way points i m
                          = Ok (add_all out m))
       (seq 0 (length points - 1)) per_segment).
  { apply Forall_exists_Forall2, Forall_forall. intros i Hi.
    apply elem_of_seq in Hi.
    destruct (lookup_lt_is_Some_2 points i) as [start_point Hs]; [lia|].
    destruct (lookup_lt_is_Some_2 points (i + 1)) as [end_point He]; [lia|].
    destruct (segment_emit geodesic self res_index way points i start_point
                end_point Hb Hs He) as (emitted & _ & Hrun).
    exists (concat emitted), start_point, end_point. auto. }
  destruct Hseg as [per_segment Hseg]. exists per_segment.
  split; [exact Hseg|]. intros m.
  unfold process_way, el_getitem. rewrite Hnodes. cbn [mbind result_bind].
  fold points. rewrite range_length.
  rewrite (for_each_emit _ _ per_segment).
  - cbn [mbind result_bind]. destruct points as [|p points']; [reflexivity|].
    cbn [folium_PolyLine mbind result_bind].
    rewrite add_to_add_all, add_all_app. reflexivity.
  - eapply Forall2_impl; [exact Hseg|].
    intros i out (? & ? & _ & _ & H). exact H.
Qed.

(** C7. The claim fails on a line none of whose node ids is in the node
    table: no vertex is resolved, no segment is formed and nothing is
    flagged, but drawing the empty line raises [ValueError], which ends
    [create_map_optimized]. A line with one resolved vertex, the sibling
    case, raises nothing. *)
Lemma unresolved_way_raises :
  resolve_points sample [7] = [] /\
  process_way plane_distance sample sample_index
    (Element (Some "way") None None (Some [7]) None)
    {| zoom_start := 12; children := [] |} = Raise ValueError /\
  create_map_optimized plane_distance
    {| nodes := sample_nodes; power_objects := [];
       ways := [Element (Some "way") None None (Some [7]) None];
       residential_nodes := [house_near] |} = Raise ValueError /\
  process_way plane_distance sample sample_index
    (Element (Some "way") None None (Some [7; 2]) None)
    {| zoom_start := 12; children := [] |} =
  Ok {| zoom_start := 12;
        children := [PolyLine [(50, 40.0009765625)%float] "blue" 2.5 1] |}.
Proof. repeat split; reflexivity. Qed.

(** X16. The vertices of a line are the coordinates of those of its node
    ids that are in the node table, in the order of the line; each
    segment joins two consecutive vertices and is processed without
    error; a line with at least one resolved vertex is drawn after the
    markers of its segments, a line with exactly one resolved vertex adds
    the line alone, and a line without a resolved vertex raises
    [ValueError]. *)
Theorem way_segments_and_polyline
    (geodesic : float * float -> float * float -> float)
    (self : MapCreator) (res_index : rtree.Index) (way : element)
    (way_nodes : list Z) :
  build_index (residential_nodes self) = Ok res_index ->
  el_nodes way = Some way_nodes ->
  let resolved :=
    filter (fun node_id => is_Some (nodes self !! node_id)) way_nodes in
  let points := resolve_points self way_nodes in
  resolved `sublist_of` way_nodes /\
  (forall node_id, node_id ∈ resolved <->
                   node_id ∈ way_nodes /\ is_Some (nodes self !! node_id)) /\
  Forall2 (fun node_id p => nodes self !! node_id = Some p) resolved points /\
  (exists per_segment : list (list child),
     length per_segment = (length points - 1)%nat /\
     (forall i out, per_segment !! i = Some out ->
        exists start_point end_point,
          points !! i = Some start_point /\
          points !! (i + 1)%nat = Some end_point /\
          forall m, process_segment geodesic self res_index way points i m
                    = Ok (add_all out m)) /\
     forall map_osm,
       process_way geodesic self res_index way map_osm =
       match points with
       | [] => Raise ValueError
       | _ :: _ =>
           Ok (add_all (concat per_segment ++ [PolyLine points "blue" 2.5 1])
                 map_osm)
       end) /\
  (length points = 1%nat ->
   forall map_osm,
     process_way geodesic self res_index way map_osm =
     Ok (add_to (PolyLine points "blue" 2.5 1) map_osm)) /\
  (points = [] ->
   forall map_osm,
     process_way geodesic self res_index way map_osm = Raise ValueError).
Proof.
  intros Hb Hnodes resolved points.
  destruct (process_way_result geodesic self res_index way way_nodes Hb Hnodes)
    as (per_segment & Hseg & Hrun).
  fold points in Hseg, Hrun.
  assert (Hlen : length per_segment = (length points - 1)%nat).
  { rewrite <- (Forall2_length _ _ _ Hseg). apply length_seq. }
  split; [apply sublist_filter|].
  split; [intros node_id; subst resolved; rewrite list_elem_of_filter; tauto|].
  split; [apply resolve_points_filter|].
  split; [|split].
  - exists per_segment. split; [exact Hlen|]. split; [|exact Hrun].
    intros i out Hi.
    destruct (Forall2_lookup_r _ _ _ _ _ Hseg Hi) as (j & Hj & Hout).
    apply lookup_seq in Hj as [-> _]. exact Hout.
  - intros Hone map_osm. rewrite Hrun.
    destruct points as [|p [|q rest]]; [discriminate| |discriminate].
    destruct per_segment; [reflexivity | cbn in Hlen; lia].
  - intros Hempty map_osm. rewrite Hrun, Hempty. reflexivity.
Qed.

Lemma way_segments_and_polyline_witness :
  resolve_points sample [1; 7; 2]
  = [(50, 40)%float; (50, 40.0009765625)%float] /\
  filter (fun node_id => is_Some (nodes sample !! node_id)) [1; 7; 2] = [1; 2]
  /\
  process_way plane_distance sample sample_index
    (Element (Some "way") None None (Some [7; 2]) None)
    {| zoom_start := 12; children := [] |} =
  Ok {| zoom_start := 12;
        children := [PolyLine [(50, 40.0009765625)%float] "blue" 2.5 1] |}.
Proof.
  split; [reflexivity|]. split; [reflexivity|].
  exact (proj1 (proj2 (proj2 (proj2 (proj2
    (way_segments_and_polyline plane_distance sample sample_index
       (Element (Some "way") None None (Some [7; 2]) None) [7; 2]
       eq_refl eq_refl)))))
    eq_refl {| zoom_start := 12; children := [] |}).
Defined.

(* ===================================================================== *)
(** ** Records without coordinates *)

Lemma fetch_buildings_keeps_nodes (elements : list element) :
  forall residential_nodes,
  Forall (fun e => is_Some (el_type e)) elements ->
  fetch_buildings_elements elements residential_nodes =
  Ok (residential_nodes ++ filter (fun e => el_type e = Some "node") elements).
Proof.
  unfold fetch_buildings_elements.
  induction elements as [|e rest IH]; intros acc Hall.
  - cbn. rewrite app_nil_r. reflexivity.
  - inversion Hall as [|? ? [ty Hty] Hrest]; subst.
    cbn [for_each]. rewrite Hty. cbn [el_getitem mbind result_bind].
    destruct (String.eqb ty "node") eqn:Heq; cbn [mbind result_bind].
    + apply String.eqb_eq in Heq; subst ty.
      rewrite filter_cons_True by assumption.
      rewrite IH by assumption. rewrite <- app_assoc. reflexivity.
    + apply String.eqb_neq in Heq.
      rewrite filter_cons_False by congruence.
      apply IH; assumption.
Qed.

Lemma index_items_length (xs : list element) : forall start,
  Forall (fun e => is_Some (coords e)) xs ->
  length (omap index_item (Py.enumerate_from start xs)) = length xs.
Proof.
  induction xs as [|e xs IH]; intros start Hall; [reflexivity|].
  inversion Hall as [|? ? [[lat lon] Hc] Hrest]; subst.
  cbn [Py.enumerate_from omap list_omap]. unfold index_item at 1.
  cbn [snd fst]. rewrite Hc. cbn. rewrite IH by assumption. reflexivity.
Qed.

(** The claim C8 fails: a residential record without [lat] is kept by
    [fetch_buildings], and the index build raises [KeyError] on it, which
    ends the run; a point object whose node is not in the table raises
    too. *)
Lemma missing_coordinate_aborts_run :
  fetch_buildings_elements [house_without_lat; house_near] []
  = Ok [house_without_lat; house_near] /\
  create_map_optimized plane_distance
    {| nodes := sample_nodes; power_objects := [(1, "Substation")];
       ways := []; residential_nodes := [house_without_lat; house_near] |}
  = Raise (KeyError "lat") /\
  create_map_optimized plane_distance
    {| nodes := sample_nodes; power_objects := [(9, "Substation")];
       ways := []; residential_nodes := [house_near] |}
  = Raise (KeyErrorId 9).
Proof. repeat split; reflexivity. Qed.

(** C8, amended. A record with a missing coordinate is not dropped:
    [fetch_buildings] keeps every node element whatever its keys; when
    the node table is not empty, a residential record without [lat] or
    [lon] makes the index build raise [KeyError], which ends
    [create_map_optimized]; an index that is built holds every
    residential record; and a point object whose node id is not in the
    node table raises [KeyError] when the point pass reaches it. *)
Theorem missing_coordinate_raises
    (geodesic : float * float -> float * float -> float)
    (self : MapCreator) :
  size (nodes self) <> 0%nat ->
  (forall elements residential_nodes,
     Forall (fun e => is_Some (el_type e)) elements ->
     fetch_buildings_elements elements residential_nodes =
     Ok (residential_nodes
         ++ filter (fun e => el_type e = Some "node") elements)) /\
  (~ Forall (fun e => is_Some (coords e)) (residential_nodes self) ->
   exists key, key ∈ ["lat"; "lon"] /\
     create_map_optimized geodesic self = Raise (KeyError key)) /\
  (forall res_index,
     build_index (residential_nodes self) = Ok res_index ->
     Forall (fun e => is_Some (coords e)) (residential_nodes self) /\
     length res_index = length (residential_nodes self)) /\
  (forall res_index before after node_id type_ map_osm,
     build_index (residential_nodes self) = Ok res_index ->
     power_objects self = before ++ (node_id, type_) :: after ->
     for_each before (process_power_object geodesic self res_index)
       {| zoom_start := 12; children := [] |} = Ok map_osm ->
     nodes self !! node_id = None ->
     create_map_optimized geodesic self = Raise (KeyErrorId node_id)).
Proof.
  intros Hn. split; [|split; [|split]].
  - intros elements acc. apply fetch_buildings_keeps_nodes.
  - intros Hnot.
    destruct (build_index_loop_raise _ 0%nat rtree.empty Hnot)
      as (key & Hkey & Hr).
    exists key. split; [exact Hkey|]. unfold create_map_optimized.
    destruct (size (nodes self)) as [|n]; [congruence|]. cbn [Nat.eqb].
    unfold build_index, Py.enumerate. rewrite Hr. reflexivity.
  - intros res_index Hb.
    destruct (build_index_Ok_inv _ _ Hb) as [Hall ->].
    split; [exact Hall|]. apply index_items_length; exact Hall.
  - intros res_index before after node_id type_ m Hb Hobjs Hbefore Hnode.
    apply (point_pass_raise_propagates geodesic self res_index); try assumption.
    rewrite Hobjs, for_each_app, Hbefore. cbn [mbind result_bind for_each].
    unfold process_power_object. rewrite Hnode. reflexivity.
Qed.

Lemma missing_coordinate_raises_witness :
  exists key, key ∈ ["lat"; "lon"] /\
    create_map_optimized plane_distance
      {| nodes := sample_nodes; power_objects := [(1, "Substation")];
         ways := []; residential_nodes := [house_near; house_without_lat] |}
    = Raise (KeyError key).
Proof.
  apply (missing_coordinate_raises plane_distance
           {| nodes := sample_nodes; power_objects := [(1, "Substation")];
              ways := []; residential_nodes := [house_near; house_without_lat] |}).
  - vm_compute. discriminate.
  - cbn [residential_nodes]. intros Hall.
    inversion Hall as [|? ? _ Hrest]; subst.
    inversion Hrest as [|? ? [p Hp] _]; subst.
    vm_compute in Hp. discriminate.
Defined.

(* ===================================================================== *)
(** ** The voltage policy *)

Lemma split_cons sep s : exists tok toks, Py.split sep s = tok :: toks.
Proof.
  destruct s as [|c rest]; cbn; [eauto|].
  destruct (Ascii.eqb c sep); [eauto|].
  destruct (Py.split sep rest); eauto.
Qed.

(** Joining the tokens of [split] gives the string back. *)
Lemma join_split sep s : join sep (Py.split sep s) = s.
Proof.
  induction s as [|c rest IH]; [reflexivity|].
  cbn [Py.split]. destruct (split_cons sep rest) as (tok & toks & Hsp).
  rewrite Hsp in *. destruct (Ascii.eqb_spec c sep) as [->|Hne].
  - transitivity (String sep (join sep (tok :: toks)));
      [reflexivity | rewrite IH; reflexivity].
  - transitivity (String c (join sep (tok :: toks)));
      [destruct toks; reflexivity | rewrite IH; reflexivity].
Qed.

Lemma max_is_maximum (xs : list Z) (m : Z) :
  Py.max xs = Some m -> is_maximum m xs.
Proof.
  destruct xs as [|x rest]; [discriminate|]. cbn [Py.max].
  intros [= <-]. revert x. induction rest as [|y rest IH]; intros x.
  - cbn. split; [left|]. intros v Hv. apply list_elem_of_singleton in Hv. lia.
  - cbn [fold_left]. destruct (Z.ltb_spec x y) as [Hlt|Hge].
    + destruct (IH y) as [Hin Hle]. split.
      * apply elem_of_cons in Hin as [-> | Hin];
          [right; left | right; right; exact Hin].
      * intros v Hv. apply elem_of_cons in Hv as [-> | Hv];
          [|apply Hle; exact Hv].
        assert (y <= fold_left (fun cur z => if cur <? z then z else cur) rest y)
          by (apply Hle; left). lia.
    + destruct (IH x) as [Hin Hle]. split.
      * apply elem_of_cons in Hin as [-> | Hin];
          [left | right; right; exact Hin].
      * intros v Hv. apply elem_of_cons in Hv as [-> | Hv]; [apply Hle; left|].
        apply elem_of_cons in Hv as [-> | Hv].
        -- assert (x <= fold_left (fun cur z => if cur <? z then z else cur) rest x)
             by (apply Hle; left). lia.
        -- apply Hle. right; exact Hv.
Qed.


(** The chain of tests of [get_thickness] is the table of the
    specification. *)
Lemma thickness_chain_table (max_voltage : Z) :
  (if max_voltage <? 1000 then 2
   else if max_voltage <? 20000 then 10
   else if max_voltage =? 35000 then 15
   else if max_voltage =? 110000 then 20
   else if (max_voltage =? 150000) || (max_voltage =? 220000) then 25
   else if (max_voltage =? 330000) || (max_voltage =? 400000)
           || (max_voltage =? 500000) then 30
   else if max_voltage =? 750000 then 40
   else if max_voltage =? 1150000 then 55
   else 20) = thickness_by_range max_voltage.
Proof.
  unfold thickness_by_range.
  repeat match goal with
         | |- context [?a <? ?b] => destruct (Z.ltb_spec a b)
         | |- context [?a =? ?b] => destruct (Z.eqb_spec a b)
         end; cbn [orb];
    repeat case_decide;
    rewrite ?elem_of_cons, ?elem_of_nil in *;
    try reflexivity; lia.
Qed.

Lemma get_thickness_nonempty (voltage : string) :
  voltage <> "" ->
  get_thickness voltage =
  match parse_voltages voltage ≫= Py.max with
  | None => 20
  | Some max_voltage => thickness_by_range max_voltage
  end.
Proof.
  intros Hne. unfold get_thickness.
  destruct (String.eqb_spec voltage "") as [|_]; [contradiction|].
  destruct (parse_voltages voltage ≫= Py.max); [|reflexivity].
  apply thickness_chain_table.
Qed.







Lemma thickness_by_range_bounds (v : Z) : 2 <= thickness_by_range v <= 55.
Proof. unfold thickness_by_range. repeat case_decide; lia. Qed.

(** Every thickness is between 2 and 55, far below [2^53]. *)
Lemma get_thickness_bounds (voltage : string) : 2 <= get_thickness voltage <= 55.
Proof.
  destruct (String.eqb_spec voltage "") as [->|Hne]; [cbn; lia|].
  rewrite (get_thickness_nonempty _ Hne).
  destruct (parse_voltages voltage ≫= Py.max); [|lia].
  apply thickness_by_range_bounds.
Qed.

(* ===================================================================== *)
(** ** The whole run on the sample *)

(** The thresholds of the program as floats. *)
Example float_of_thresholds :
  map Py.float_of_int [2; 10; 15; 20; 25; 30; 40; 45; 55]
  = [2; 10; 15; 20; 25; 30; 40; 45; 55]%float.
Proof. reflexivity. Qed.

(** Thresholds are inclusive. *)
Example threshold_inclusive :
  Py.le_float_int 10 10 = true /\ Py.le_float_int 45 45 = true /\
  Py.le_float_int 10.5 10 = false.
Proof. repeat split; reflexivity. Qed.

(** The substation flags the near house only; the 750 kV line, whose
    resolved vertices are nodes 1 and 2, flags it once for its single
    segment. *)
Example create_map_optimized_sample :
  create_map_optimized plane_distance sample =
  Ok {| zoom_start := 12;
        children :=
          [CircleMarker (50, 40)%float 10 "blue" true "blue" "Substation";
           hit_marker (50.00006103515625, 40)%float
             "Residential Building near Power Object";
           hit_marker (50.00006103515625, 40)%float
             "Residential Building near Power Line";
           PolyLine [(50, 40)%float; (50, 40.0009765625)%float] "blue" 2.5 1]
     |}.
Proof. reflexivity. Qed.

(** With an empty node table nothing is read and an empty map is
    returned. *)
Example create_map_optimized_no_nodes :
  create_map_optimized plane_distance
    {| nodes := ∅; power_objects := [(1, "Tower")]; ways := [];
       residential_nodes := [house_without_lat] |} =
  Ok {| zoom_start := 2; children := [] |}.
Proof. reflexivity. Qed.

(* ===================================================================== *)
(** ** Loops that may raise *)

Lemma for_each_Raise_inv {A S} (xs : list A) (body : A -> S -> result S) e :
  forall s, for_each xs body s = Raise e ->
  exists x s', x ∈ xs /\ body x s' = Raise e.
Proof.
  induction xs as [|x xs IH]; intros s H; [discriminate|].
  cbn [for_each] in H. destruct (body x s) as [s'|e'] eqn:Hx.
  - cbn in H. destruct (IH _ H) as (y & t & Hy & Hr).
    exists y, t. split; [right; exact Hy | exact Hr].
  - cbn in H. injection H as ->. exists x, s. split; [left | exact Hx].
Qed.

Lemma for_each_invariant {A S} (P : S -> Prop) (xs : list A)
    (body : A -> S -> result S) :
  (forall x s s', x ∈ xs -> P s -> body x s = Ok s' -> P s') ->
  forall s r, P s -> for_each xs body s = Ok r -> P r.
Proof.
  induction xs as [|x xs IH]; intros Hbody s r Hs H.
  - cbn in H. injection H as <-. exact Hs.
  - cbn [for_each] in H. destruct (body x s) as [s'|e'] eqn:Hx; [|discriminate].
    cbn in H. apply (IH (fun y t t' Hy => Hbody y t t' (list_elem_of_further _ _ _ Hy)) s' r);
      [|exact H].
    apply (Hbody x s s'); [left | exact Hs | exact Hx].
Qed.

(** A loop over bodies that add children adds, element by element, what
    the bodies add. *)
Lemma for_each_outs {A} (P : A -> list child -> Prop) (xs : list A)
    (body : A -> Map -> result Map) :
  (forall x m m', x ∈ xs -> body x m = Ok m' ->
     exists out, P x out /\ m' = add_all out m) ->
  forall m m', for_each xs body m = Ok m' ->
  exists outs, Forall2 P xs outs /\ m' = add_all (concat outs) m.
Proof.
  induction xs as [|x xs IH]; intros Hbody m m' H.
  - cbn in H. injection H as <-. exists []. split; [constructor|].
    rewrite add_all_nil. reflexivity.
  - cbn [for_each] in H. destruct (body x m) as [m1|e'] eqn:Hx; [|discriminate].
    cbn in H. destruct (Hbody x m m1 (list_elem_of_here _ _) Hx) as (out & Hout & ->).
    destruct (IH (fun y t t' Hy => Hbody y t t' (list_elem_of_further _ _ _ Hy))
                _ _ H) as (outs & Houts & ->).
    exists (out :: outs). split; [constructor; assumption|].
    cbn [concat]. rewrite add_all_app. reflexivity.
Qed.

Lemma Forall_concat_intro {A} (P : A -> Prop) (ls : list (list A)) :
  Forall (Forall P) ls -> Forall P (concat ls).
Proof.
  induction 1 as [|l ls Hl _ IH]; cbn [concat]; [constructor|].
  apply Forall_app. split; assumption.
Qed.

(* ===================================================================== *)
(** ** What one point object and one way add to the map *)

Section Outputs.

Variable geodesic : float * float -> float * float -> float.
Variable self : MapCreator.
Variable res_index : rtree.Index.
Hypothesis Hindex : build_index (residential_nodes self) = Ok res_index.

Lemma power_object_known_runs node_id type_ lat lon threshold :
  nodes self !! node_id = Some (lat, lon) ->
  distances !! type_ = Some threshold ->
  exists hits,
    Forall (point_hit_justified geodesic self (lat, lon) threshold) hits /\
    forall m, process_power_object geodesic self res_index (node_id, type_) m
              = Ok (add_all (circle_of (lat, lon) type_ :: hits) m).
Proof.
  intros Hnode Hkind.
  destruct (candidates_emit self res_index (point_box lat lon)
              (check_point_candidate geodesic self type_ lat lon)
              (fun res => if (geodesic (lat, lon) res
                              <=? Py.float_of_int threshold)%float
                          then [hit_marker res
                                  "Residential Building near Power Object"]
                          else []) Hindex) as (emitted & Hem & Hrun).
  { intros idx e res_lat res_lon m Hl Hlat Hlon.
    apply (check_point_candidate_known geodesic self type_ threshold lat lon
             idx e res_lat res_lon m Hl Hlat Hlon Hkind). }
  exists (concat emitted). split.
  - apply Forall_concat_intro. eapply Forall2_Forall_r; [exact Hem|].
    apply Forall_forall. intros idx _ out (e & rlat & rlon & Hl & Hlat & Hlon & ->).
    destruct (geodesic (lat, lon) (rlat, rlon) <=? Py.float_of_int threshold)%float
      eqn:Hle; [|constructor].
    constructor; [|constructor].
    exists e, (rlat, rlon). split; [eapply list_elem_of_lookup_2; exact Hl|].
    split; [unfold coords; rewrite Hlat, Hlon; reflexivity|].
    split; [exact Hle | reflexivity].
  - intros m. unfold process_power_object. rewrite Hnode. cbn -[colors].
    fold (point_box lat lon). rewrite Hrun, add_to_add_all, add_all_app.
    reflexivity.
Qed.

(** What a point object adds when it is processed to the end. *)
Lemma power_object_out node_id type_ m m' :
  process_power_object geodesic self res_index (node_id, type_) m = Ok m' ->
  exists p hits,
    nodes self !! node_id = Some p /\
    m' = add_all (circle_of p type_ :: hits) m /\
    Forall (fun c => exists threshold,
              distances !! type_ = Some threshold /\
              point_hit_justified geodesic self p threshold c) hits.
Proof.
  intros H. destruct (nodes self !! node_id) as [[lat lon]|] eqn:Hnode.
  - destruct (distances !! type_) as [threshold|] eqn:Hkind.
    + destruct (power_object_known_runs node_id type_ lat lon threshold
                  Hnode Hkind) as (hits & Hhits & Hrun).
      rewrite Hrun in H. injection H as <-.
      exists (lat, lon), hits. split; [reflexivity|]. split; [reflexivity|].
      eapply Forall_impl; [exact Hhits|]. intros c Hc. exists threshold. auto.
    + apply distances_lookup_None in Hkind.
      rewrite (process_unknown_kind geodesic self res_index node_id type_
                 lat lon m Hindex Hnode Hkind) in H.
      destruct (rtree.intersection res_index (point_box lat lon));
        [|discriminate].
      injection H as <-. exists (lat, lon), []. split; [reflexivity|].
      split; [|constructor].
      unfold circle_of. rewrite (colors_lookup_None type_ Hkind). reflexivity.
  - unfold process_power_object in H. rewrite Hnode in H. discriminate.
Qed.

(** The exceptions of a point object. *)
Lemma power_object_raise node_id type_ m e :
  process_power_object geodesic self res_index (node_id, type_) m = Raise e ->
  nodes self !! node_id = None /\ e = KeyErrorId node_id \/
  (type_ ∉ recognized_kinds) /\ e = KeyError type_.
Proof.
  intros H. destruct (nodes self !! node_id) as [[lat lon]|] eqn:Hnode.
  - right. destruct (distances !! type_) as [threshold|] eqn:Hkind.
    + destruct (power_object_known_runs node_id type_ lat lon threshold
                  Hnode Hkind) as (hits & _ & Hrun).
      rewrite Hrun in H. discriminate.
    + apply distances_lookup_None in Hkind. split; [exact Hkind|].
      rewrite (process_unknown_kind geodesic self res_index node_id type_
                 lat lon m Hindex Hnode Hkind) in H.
      destruct (rtree.intersection res_index (point_box lat lon));
        [discriminate|]. congruence.
  - left. split; [reflexivity|].
    unfold process_power_object in H. rewrite Hnode in H. cbn in H. congruence.
Qed.

(** A way with a [nodes] key is processed to the end, unless none of its
    vertices is resolved. *)
Lemma way_runs way way_nodes :
  el_nodes way = Some way_nodes ->
  exists hits,
    Forall (fun c => exists i start_point end_point,
              resolve_points self way_nodes !! i = Some start_point /\
              resolve_points self way_nodes !! (i + 1)%nat = Some end_point /\
              line_hit_justified geodesic self way start_point end_point c)
           hits /\
    forall m, process_way geodesic self res_index way m
              = match resolve_points self way_nodes with
                | [] => Raise ValueError
                | _ :: _ => Ok (add_all (hits ++ [polyline_of self way_nodes]) m)
                end.
Proof.
  intros Hnodes. set (points := resolve_points self way_nodes).
  assert (Hseg : exists per_segment : list (list child),
     Forall2 (fun i out =>
                Forall (fun c => exists i start_point end_point,
                          points !! i = Some start_point /\
                          points !! (i + 1)%nat = Some end_point /\
                          line_hit_justified geodesic self way
                            start_point end_point c) out /\
                forall m, process_segment geodesic self res_index way points i m
                          = Ok (add_all out m))
       (seq 0 (length points - 1)) per_segment).
  { apply Forall_exists_Forall2, Forall_forall. intros i Hi.
    apply elem_of_seq in Hi.
    destruct (lookup_lt_is_Some_2 points i) as [start_point Hs]; [lia|].
    destruct (lookup_lt_is_Some_2 points (i + 1)) as [end_point He]; [lia|].
    destruct (segment_emit geodesic self res_index way points i start_point
                end_point Hindex Hs He) as (emitted & Hem & Hrun).
    exists (concat emitted). split; [|exact Hrun].
    apply Forall_concat_intro. eapply Forall2_Forall_r; [exact Hem|].
    apply Forall_forall. intros idx _ out (e & rlat & rlon & Hl & Hlat & Hlon & ->).
    rewrite line_threshold_id.
    destruct (Py.fmin (geodesic start_point (rlat, rlon))
                      (geodesic end_point (rlat, rlon))
              <=? Py.float_of_int (get_thickness (way_voltage way)))%float
      eqn:Hle; [|constructor].
    constructor; [|constructor].
    exists i, start_point, end_point. split; [exact Hs|]. split; [exact He|].
    exists e, (rlat, rlon). split; [eapply list_elem_of_lookup_2; exact Hl|].
    split; [unfold coords; rewrite Hlat, Hlon; reflexivity|].
    split; [exact Hle | reflexivity]. }
  destruct Hseg as [per_segment Hseg].
  exists (concat per_segment). split.
  - apply Forall_concat_intro. eapply Forall2_Forall_r; [exact Hseg|].
    apply Forall_forall. intros i _ out [Hout _]. exact Hout.
  - intros m. unfold process_way, el_getitem. rewrite Hnodes.
    cbn [mbind result_bind]. fold points. rewrite range_length.
    rewrite (for_each_emit _ _ per_segment).
    + cbn [mbind result_bind]. unfold polyline_of.
      fold (resolve_points self way_nodes). fold points. destruct points as [|p points']; [reflexivity|].
      cbn [folium_PolyLine mbind result_bind].
      rewrite add_to_add_all, add_all_app. reflexivity.
    + eapply Forall2_impl; [exact Hseg|]. intros i out [_ H]. exact H.
Qed.

Lemma way_raise way m e :
  process_way geodesic self res_index way m = Raise e ->
  el_nodes way = None /\ e = KeyError "nodes" \/
  (exists way_nodes, el_nodes way = Some way_nodes /\
                     resolve_points self way_nodes = []) /\
  e = ValueError.
Proof.
  intros H. destruct (el_nodes way) as [way_nodes|] eqn:Hnodes.
  - right. destruct (way_runs way way_nodes Hnodes) as (hits & _ & Hrun).
    rewrite Hrun in H.
    destruct (resolve_points self way_nodes) eqn:Hpoints; [|discriminate].
    split; [eauto | congruence].
  - left. split; [reflexivity|]. unfold process_way in H. rewrite Hnodes in H.
    cbn in H. congruence.
Qed.

(** What a way adds when it is processed to the end. *)
Lemma way_out way m m' :
  process_way geodesic self res_index way m = Ok m' ->
  exists way_nodes hits,
    el_nodes way = Some way_nodes /\
    resolve_points self way_nodes <> [] /\
    m' = add_all (hits ++ [polyline_of self way_nodes]) m /\
    Forall (fun c => exists i start_point end_point,
              resolve_points self way_nodes !! i = Some start_point /\
              resolve_points self way_nodes !! (i + 1)%nat = Some end_point /\
              line_hit_justified geodesic self way start_point end_point c)
           hits.
Proof.
  intros H. destruct (el_nodes way) as [way_nodes|] eqn:Hnodes.
  - destruct (way_runs way way_nodes Hnodes) as (hits & Hhits & Hrun).
    rewrite Hrun in H.
    destruct (resolve_points self way_nodes) eqn:Hpoints; [discriminate|].
    injection H as <-. exists way_nodes, hits. rewrite Hpoints in *.
    split; [reflexivity|]. split; [discriminate|]. split; [reflexivity|].
    exact Hhits.
  - unfold process_way in H. rewrite Hnodes in H. discriminate.
Qed.

End Outputs.

(* ===================================================================== *)
(** ** The whole run *)

Lemma filter_none (f : child -> bool) (cs : list child) :
  Forall (fun c => f c = false) cs -> List.filter f cs = [].
Proof.
  induction 1 as [|c cs Hc _ IH]; [reflexivity|].
  cbn [List.filter]. rewrite Hc. exact IH.
Qed.

Lemma filter_concat_none (f : child -> bool) (outs : list (list child)) :
  Forall (fun out => List.filter f out = []) outs ->
  List.filter f (concat outs) = [].
Proof.
  induction 1 as [|out outs Hout _ IH]; [reflexivity|].
  cbn [concat]. rewrite List.filter_app, Hout, IH. reflexivity.
Qed.

Lemma filter_concat_one {A} (f : child -> bool) (Q : A -> child -> Prop)
    (xs : list A) (outs : list (list child)) :
  Forall2 (fun x out => exists c, List.filter f out = [c] /\ Q x c) xs outs ->
  Forall2 Q xs (List.filter f (concat outs)).
Proof.
  induction 1 as [|x out xs outs (c & Hc & HQ) _ IH]; [constructor|].
  cbn [concat]. rewrite List.filter_app, Hc. constructor; assumption.
Qed.

Lemma hit_marker_kinds res popup :
  is_warning (hit_marker res popup) = true /\
  is_circle (hit_marker res popup) = false /\
  is_polyline (hit_marker res popup) = false.
Proof. repeat split; reflexivity. Qed.

(** The children of a returned map, object by object and way by way. *)
Lemma run_structure (geodesic : float * float -> float * float -> float)
    (self : MapCreator) (m : Map) :
  size (nodes self) <> 0%nat ->
  create_map_optimized geodesic self = Ok m ->
  exists point_outs way_outs,
    Forall2 (fun obj out => exists p hits,
               nodes self !! obj.1 = Some p /\
               out = circle_of p obj.2 :: hits /\
               Forall (fun c => is_warning c = true /\
                                hit_justified geodesic self c) hits)
            (power_objects self) point_outs /\
    Forall2 (fun way out => exists way_nodes hits,
               el_nodes way = Some way_nodes /\
               out = hits ++ [polyline_of self way_nodes] /\
               Forall (fun c => is_warning c = true /\
                                hit_justified geodesic self c) hits)
            (ways self) way_outs /\
    m = {| zoom_start := 12; children := concat point_outs ++ concat way_outs |}.
Proof.
  intros Hn H. unfold create_map_optimized in H.
  destruct (size (nodes self)) as [|n] eqn:Hs; [congruence|]. cbn [Nat.eqb] in H.
  destruct (build_index (residential_nodes self)) as [res_index|e] eqn:Hb;
    [|discriminate].
  cbn [mbind result_bind] in H.
  destruct (for_each (power_objects self) _ _) as [m1|e] eqn:Hpoints;
    [|discriminate].
  cbn [mbind result_bind] in H.
  destruct (for_each (ways self) _ _) as [m2|e] eqn:Hways; [|discriminate].
  cbn in H. injection H as <-.
  apply (for_each_outs
           (fun obj out => exists p hits,
              nodes self !! obj.1 = Some p /\
              out = circle_of p obj.2 :: hits /\
              Forall (fun c => is_warning c = true /\
                               hit_justified geodesic self c) hits))
    in Hpoints as (point_outs & Hpo & ->).
  2:{ intros [node_id type_] t t' Hin Ht.
      destruct (power_object_out geodesic self res_index Hb node_id type_ t t' Ht)
        as (p & hits & Hnode & -> & Hhits).
      exists (circle_of p type_ :: hits). split; [|reflexivity].
      exists p, hits. split; [exact Hnode|]. split; [reflexivity|].
      eapply Forall_impl; [exact Hhits|].
      intros c (threshold & Hthr & Hc). split.
      - destruct Hc as (? & ? & _ & _ & _ & ->). reflexivity.
      - left. exists node_id, type_, p, threshold. auto. }
  apply (for_each_outs
           (fun way out => exists way_nodes hits,
              el_nodes way = Some way_nodes /\
              out = hits ++ [polyline_of self way_nodes] /\
              Forall (fun c => is_warning c = true /\
                               hit_justified geodesic self c) hits))
    in Hways as (way_outs & Hwo & ->).
  2:{ intros way t t' Hin Ht.
      destruct (way_out geodesic self res_index Hb way t t' Ht)
        as (way_nodes & hits & Hnodes & _ & -> & Hhits).
      exists (hits ++ [polyline_of self way_nodes]). split; [|reflexivity].
      exists way_nodes, hits. split; [exact Hnodes|]. split; [reflexivity|].
      eapply Forall_impl; [exact Hhits|].
      intros c (i & sp & ep & Hsp & Hep & Hc). split.
      - destruct Hc as (? & ? & _ & _ & _ & ->). reflexivity.
      - right. exists way, way_nodes, i, sp, ep. auto. }
  exists point_outs, way_outs. split; [exact Hpo|]. split; [exact Hwo|].
  unfold add_all; cbn. reflexivity.
Qed.

Lemma build_index_raise_inv (residential : list element) (e : exn) :
  build_index residential = Raise e ->
  exists res_node, res_node ∈ residential /\
    (el_lat res_node = None /\ e = KeyError "lat" \/
     el_lon res_node = None /\ e = KeyError "lon").
Proof.
  unfold build_index, Py.enumerate. intros H.
  apply for_each_Raise_inv in H as ([pos r] & acc & Hin & Hr).
  apply elem_of_enumerate_from in Hin as [_ Hl].
  exists r. split; [eapply list_elem_of_lookup_2; exact Hl|].
  unfold insert_residential in Hr.
  destruct (el_lat r) as [lat|]; [|left; cbn in Hr; split; congruence].
  destruct (el_lon r) as [lon|]; [discriminate|].
  right. cbn in Hr. split; congruence.
Qed.

Lemma run_raise_inv (geodesic : float * float -> float * float -> float)
    (self : MapCreator) (e : exn) :
  create_map_optimized geodesic self = Raise e -> run_error self e.
Proof.
  intros H. unfold create_map_optimized in H.
  destruct (size (nodes self)) as [|n]; [discriminate|]. cbn [Nat.eqb] in H.
  destruct (build_index (residential_nodes self)) as [res_index|e'] eqn:Hb.
  - cbn [mbind result_bind] in H.
    destruct (for_each (power_objects self) _ _) as [m1|e'] eqn:Hpoints.
    + cbn [mbind result_bind] in H.
      destruct (for_each (ways self) _ _) as [m2|e'] eqn:Hways; [discriminate|].
      cbn in H. injection H as ->.
      apply for_each_Raise_inv in Hways as (way & t & Hin & Hr).
      apply (way_raise geodesic self res_index Hb) in Hr.
      right; right. exists way. auto.
    + cbn in H. injection H as ->.
      apply for_each_Raise_inv in Hpoints as ([node_id type_] & t & Hin & Hr).
      apply (power_object_raise geodesic self res_index Hb) in Hr.
      right; left. exists node_id, type_. auto.
  - cbn in H. injection H as ->.
    left. apply build_index_raise_inv. exact Hb.
Qed.

(** X1. A map returned for a non-empty node table has zoom 12; its
    circles are, in order, one for each point object, at the coordinates
    of its node, and its lines are, in order, one for each way, through
    the resolved vertices of the way: every object is drawn, flagged or
    not. *)
Theorem run_draws_every_object
    (geodesic : float * float -> float * float -> float)
    (self : MapCreator) (m : Map) :
  size (nodes self) <> 0%nat ->
  create_map_optimized geodesic self = Ok m ->
  zoom_start m = 12 /\
  Forall2 (fun obj c => exists p,
             nodes self !! obj.1 = Some p /\ c = circle_of p obj.2)
          (power_objects self) (List.filter is_circle (children m)) /\
  Forall2 (fun way c => exists way_nodes,
             el_nodes way = Some way_nodes /\ c = polyline_of self way_nodes)
          (ways self) (List.filter is_polyline (children m)).
Proof.
  intros Hn H.
  destruct (run_structure geodesic self m Hn H)
    as (point_outs & way_outs & Hpo & Hwo & ->).
  cbn [zoom_start children]. split; [reflexivity|].
  rewrite !List.filter_app.
  assert (Hwarn : forall (f : child -> bool) hits,
            (forall c, is_warning c = true -> f c = false) ->
            Forall (fun c => is_warning c = true /\ hit_justified geodesic self c)
              hits ->
            List.filter f hits = []).
  { intros f hits Hf Hhits. apply filter_none.
    eapply Forall_impl; [exact Hhits|]. intros c [Hc _]. auto. }
  assert (Hwc : forall c, is_warning c = true -> is_circle c = false)
    by (intros []; cbn; congruence).
  assert (Hwp : forall c, is_warning c = true -> is_polyline c = false)
    by (intros []; cbn; congruence).
  split.
  - rewrite (filter_concat_none is_circle way_outs), app_nil_r.
    + apply filter_concat_one. eapply Forall2_impl; [exact Hpo|].
      intros obj out (p & hits & Hp & -> & Hhits).
      exists (circle_of p obj.2). split; [|eauto].
      cbn [List.filter circle_of is_circle]. rewrite (Hwarn _ _ Hwc Hhits).
      reflexivity.
    + eapply Forall2_Forall_r; [exact Hwo|]. apply Forall_forall.
      intros way _ out (way_nodes & hits & _ & -> & Hhits).
      rewrite List.filter_app, (Hwarn _ _ Hwc Hhits). reflexivity.
  - rewrite (filter_concat_none is_polyline point_outs), app_nil_l.
    + apply filter_concat_one. eapply Forall2_impl; [exact Hwo|].
      intros way out (way_nodes & hits & Hw & -> & Hhits).
      exists (polyline_of self way_nodes). split; [|eauto].
      rewrite List.filter_app, (Hwarn _ _ Hwp Hhits). reflexivity.
    + eapply Forall2_Forall_r; [exact Hpo|]. apply Forall_forall.
      intros obj _ out (p & hits & _ & -> & Hhits).
      cbn [List.filter circle_of is_polyline]. apply (Hwarn _ _ Hwp Hhits).
Qed.

Lemma run_draws_every_object_witness :
  exists m, create_map_optimized plane_distance sample = Ok m /\
    zoom_start m = 12 /\
    Forall2 (fun obj c => exists p,
               nodes sample !! obj.1 = Some p /\ c = circle_of p obj.2)
            (power_objects sample) (List.filter is_circle (children m)) /\
    Forall2 (fun way c => exists way_nodes,
               el_nodes way = Some way_nodes /\
               c = polyline_of sample way_nodes)
            (ways sample) (List.filter is_polyline (children m)).
Proof.
  eexists. split; [reflexivity|].
  apply (run_draws_every_object plane_distance sample).
  - vm_compute. discriminate.
  - reflexivity.
Defined.

(** X2. Every warning marker of a returned map is owed to the input: it
    sits on a residential record whose distance to a point object of a
    recognised kind is at most the threshold of that kind, or for which
    the smaller distance to the two ends of a segment of a way is at most
    the thickness of the way. *)
Theorem run_warnings_justified
    (geodesic : float * float -> float * float -> float)
    (self : MapCreator) (m : Map) :
  create_map_optimized geodesic self = Ok m ->
  Forall (fun c => is_warning c = true -> hit_justified geodesic self c)
         (children m).
Proof.
  intros H. destruct (decide (size (nodes self) = 0%nat)) as [Hz|Hn].
  - unfold create_map_optimized in H. rewrite Hz in H. cbn in H.
    injection H as <-. constructor.
  - destruct (run_structure geodesic self m Hn H)
      as (point_outs & way_outs & Hpo & Hwo & ->).
    cbn [children]. apply Forall_app. split; apply Forall_concat_intro.
    + eapply Forall2_Forall_r; [exact Hpo|]. apply Forall_forall.
      intros obj _ out (p & hits & _ & -> & Hhits).
      constructor; [discriminate|].
      eapply Forall_impl; [exact Hhits|]. intros c [_ Hc] _. exact Hc.
    + eapply Forall2_Forall_r; [exact Hwo|]. apply Forall_forall.
      intros way _ out (way_nodes & hits & _ & -> & Hhits).
      apply Forall_app. split; [|constructor; [discriminate|constructor]].
      eapply Forall_impl; [exact Hhits|]. intros c [_ Hc] _. exact Hc.
Qed.

Lemma run_warnings_justified_witness :
  exists m, create_map_optimized plane_distance sample = Ok m /\
    Forall (fun c => is_warning c = true -> hit_justified plane_distance sample c)
           (children m).
Proof.
  eexists. split; [reflexivity|].
  apply (run_warnings_justified plane_distance sample). reflexivity.
Defined.

(** X3. An exception of [create_map_optimized] is a [KeyError] for the
    key [lat] or [lon] of a residential record that lacks it, for the
    node id of a point object that is not in the node table, for the kind
    of a point object that is not a recognised one, or for the key
    [nodes] of a way that lacks it, or it is the [ValueError] of the
    empty line of a way none of whose nodes is in the node table. No
    list index is ever out of range. *)
Theorem run_exceptions
    (geodesic : float * float -> float * float -> float)
    (self : MapCreator) (e : exn) :
  create_map_optimized geodesic self = Raise e ->
  run_error self e /\ e <> IndexError.
Proof.
  intros H. apply run_raise_inv in H. split; [exact H|].
  destruct H as [(r & _ & [[_ ->]|[_ ->]])
                |[(node_id & type_ & _ & [[_ ->]|[_ ->]])
                 |(way & _ & [[_ ->]|[_ ->]])]]; discriminate.
Qed.

Lemma run_exceptions_witness :
  (run_error
     {| nodes := sample_nodes; power_objects := [(9, "Substation")];
        ways := []; residential_nodes := [house_near] |} (KeyErrorId 9) /\
   KeyErrorId 9 <> IndexError) /\
  (run_error
     {| nodes := sample_nodes; power_objects := [];
        ways := [Element (Some "way") None None (Some [7]) None];
        residential_nodes := [house_near] |} ValueError /\
   ValueError <> IndexError).
Proof.
  split.
  - apply (run_exceptions plane_distance
             {| nodes := sample_nodes; power_objects := [(9, "Substation")];
                ways := []; residential_nodes := [house_near] |}).
    reflexivity.
  - apply (run_exceptions plane_distance
             {| nodes := sample_nodes; power_objects := [];
                ways := [Element (Some "way") None None (Some [7]) None];
                residential_nodes := [house_near] |}).
    reflexivity.
Defined.

Lemma way_drawable_points (self : MapCreator) (way : element) :
  way_drawable self way ->
  exists way_nodes, el_nodes way = Some way_nodes /\
                    resolve_points self way_nodes <> [].
Proof.
  intros (way_nodes & node_id & Hnodes & Hin & [p Hp]).
  exists way_nodes. split; [exact Hnodes|]. intros Hempty.
  assert (Hp' : p ∈ resolve_points self way_nodes).
  { unfold resolve_points. apply list_elem_of_omap. eauto. }
  rewrite Hempty in Hp'. apply elem_of_nil in Hp'. exact Hp'.
Qed.

(** X4. [create_map_optimized] returns a map whenever every residential
    record has both coordinates, every point object has its node in the
    node table and a recognised kind, and every way has a [nodes] key and
    at least one of its nodes in the node table. *)
Theorem run_succeeds_on_well_formed_input
    (geodesic : float * float -> float * float -> float)
    (self : MapCreator) :
  Forall (fun res_node => is_Some (coords res_node)) (residential_nodes self) ->
  Forall (fun obj => is_Some (nodes self !! obj.1) /\ obj.2 ∈ recognized_kinds)
         (power_objects self) ->
  Forall (way_drawable self) (ways self) ->
  exists m, create_map_optimized geodesic self = Ok m.
Proof.
  intros Hres Hobjs Hways.
  destruct (create_map_optimized geodesic self) as [m|e] eqn:H; [eauto|].
  exfalso. apply run_raise_inv in H.
  destruct H as [(r & Hin & Hr)
                |[(node_id & type_ & Hin & Hr)|(way & Hin & Hw)]].
  - rewrite Forall_forall in Hres. destruct (Hres r Hin) as [p Hp].
    unfold coords in Hp.
    destruct Hr as [[Hnone _]|[Hnone _]]; rewrite Hnone in Hp;
      [|destruct (el_lat r)]; discriminate.
  - rewrite Forall_forall in Hobjs.
    destruct (Hobjs (node_id, type_) Hin) as [[p Hp] Hkind]. cbn in Hp, Hkind.
    destruct Hr as [[Hnone _]|[Hnot _]]; [congruence | contradiction].
  - rewrite Forall_forall in Hways.
    destruct (way_drawable_points self way (Hways way Hin))
      as (way_nodes & Hnodes & Hpoints).
    destruct Hw as [[Hnone _]|[(ns & Hns & Hempty) _]]; congruence.
Qed.

Lemma run_succeeds_on_well_formed_input_witness :
  exists m, create_map_optimized plane_distance sample = Ok m.
Proof.
  apply (run_succeeds_on_well_formed_input plane_distance sample).
  - constructor; [eexists; reflexivity|].
    constructor; [eexists; reflexivity | constructor].
  - constructor; [|constructor].
    split; [eexists; reflexivity | compute_done].
  - constructor; [|constructor].
    exists [1; 7; 2], 1. split; [reflexivity|].
    split; [left | eexists; reflexivity].
Defined.

Lemma power_object_empty_index
    (geodesic : float * float -> float * float -> float)
    (self : MapCreator) (node_id : Z) (type_ : string) (p : float * float)
    (m : Map) :
  nodes self !! node_id = Some p ->
  process_power_object geodesic self rtree.empty (node_id, type_) m =
  Ok (add_all [circle_of p type_] m).
Proof.
  intros Hp. unfold process_power_object. rewrite Hp. destruct p as [lat lon].
  reflexivity.
Qed.

Lemma point_pass_empty_index
    (geodesic : float * float -> float * float -> float)
    (self : MapCreator) (objs : list (Z * string)) :
  Forall (fun obj => is_Some (nodes self !! obj.1)) objs ->
  forall m,
    for_each objs (process_power_object geodesic self rtree.empty) m =
    Ok (add_all (omap (fun obj => p ← nodes self !! obj.1;
                                  Some (circle_of p obj.2)) objs) m).
Proof.
  induction 1 as [|[node_id type_] objs [p Hp] _ IH]; intros m.
  - cbn. rewrite add_all_nil. reflexivity.
  - cbn [fst] in Hp. cbn [for_each omap list_omap fst snd].
    rewrite (power_object_empty_index geodesic self node_id type_ p m Hp).
    rewrite Hp. cbn [mbind result_bind option_bind].
    rewrite IH, add_all_app. reflexivity.
Qed.

Lemma line_pass_empty_index
    (geodesic : float * float -> float * float -> float)
    (self : MapCreator) (ws : list element) :
  residential_nodes self = [] ->
  Forall (way_drawable self) ws ->
  forall m,
    for_each ws (process_way geodesic self rtree.empty) m =
    Ok (add_all (omap (fun way => way_nodes ← el_nodes way;
                                  Some (polyline_of self way_nodes)) ws) m).
Proof.
  intros Hres. induction 1 as [|way ws Hdraw _ IH]; intros m.
  - cbn. rewrite add_all_nil. reflexivity.
  - assert (Hb : build_index (residential_nodes self) = Ok rtree.empty)
      by (rewrite Hres; reflexivity).
    destruct (way_drawable_points self way Hdraw) as (way_nodes & Hw & Hpoints).
    destruct (way_runs geodesic self rtree.empty Hb way way_nodes Hw)
      as (hits & Hhits & Hrun).
    destruct (resolve_points self way_nodes) as [|p0 points0] eqn:Hrp;
      [congruence|].
    assert (hits = []) as ->.
    { destruct hits as [|c hits]; [reflexivity|].
      inversion Hhits as [|? ? (i & sp & ep & _ & _ & r & res & Hin & _) _].
      rewrite Hres in Hin. apply elem_of_nil in Hin. contradiction. }
    cbn [for_each omap list_omap]. rewrite Hrun, Hw. cbn [mbind result_bind].
    rewrite IH, add_all_app. reflexivity.
Qed.

(** X5. With no residential record nothing is flagged and the kinds are
    never looked up: if the node table is not empty, every point object
    has its node in it and every way has a [nodes] key and at least one
    of its nodes in the node table, the map holds the circles of the
    point objects followed by the lines of the ways, whatever the
    kinds. *)
Theorem run_without_residential_nodes
    (geodesic : float * float -> float * float -> float)
    (self : MapCreator) :
  residential_nodes self = [] ->
  size (nodes self) <> 0%nat ->
  Forall (fun obj => is_Some (nodes self !! obj.1)) (power_objects self) ->
  Forall (way_drawable self) (ways self) ->
  create_map_optimized geodesic self =
  Ok {| zoom_start := 12;
        children :=
          omap (fun obj => p ← nodes self !! obj.1; Some (circle_of p obj.2))
               (power_objects self)
          ++ omap (fun way => way_nodes ← el_nodes way;
                               Some (polyline_of self way_nodes))
               (ways self) |}.
Proof.
  intros Hres Hn Hobjs Hways. unfold create_map_optimized.
  destruct (size (nodes self)) as [|n]; [congruence|]. cbn [Nat.eqb].
  rewrite Hres at 1. cbn [build_index Py.enumerate Py.enumerate_from for_each
                            mbind result_bind].
  rewrite (point_pass_empty_index geodesic self _ Hobjs).
  cbn [mbind result_bind].
  rewrite (line_pass_empty_index geodesic self _ Hres Hways).
  cbn [mbind result_bind]. rewrite add_all_app. reflexivity.
Qed.

Lemma run_without_residential_nodes_witness :
  create_map_optimized plane_distance
    {| nodes := sample_nodes; power_objects := [(1, "Tower")];
       ways := [line_750kV]; residential_nodes := [] |} =
  Ok {| zoom_start := 12;
        children :=
          [circle_of (50, 40)%float "Tower";
           PolyLine [(50, 40)%float; (50, 40.0009765625)%float] "blue" 2.5 1] |}.
Proof.
  apply (run_without_residential_nodes plane_distance
           {| nodes := sample_nodes; power_objects := [(1, "Tower")];
              ways := [line_750kV]; residential_nodes := [] |}).
  - reflexivity.
  - vm_compute. discriminate.
  - constructor; [eexists; reflexivity | constructor].
  - constructor; [|constructor].
    exists [1; 7; 2], 1. split; [reflexivity|].
    split; [left | eexists; reflexivity].
Defined.

(* ===================================================================== *)
(** ** [OverpassAPI.fetch_power_objects] *)

(** What [store_element] does, by the type of the element. *)
Lemma store_element_Ok_inv (element : response_element)
    (self self' : OverpassAPI.t) :
  OverpassAPI.store_element element self = Ok self' ->
  (exists lat lon id,
     el_type (re_keys element) = Some "node" /\
     el_lat (re_keys element) = Some lat /\
     el_lon (re_keys element) = Some lon /\ re_id element = Some id /\
     OverpassAPI.nodes self' = <[id := (lat, lon)]> (OverpassAPI.nodes self) /\
     (exists added, Forall (fun obj => obj.1 = id) added /\
        OverpassAPI.power_objects self'
        = OverpassAPI.power_objects self ++ added) /\
     OverpassAPI.ways self' = OverpassAPI.ways self /\
     OverpassAPI.residential_nodes self' = OverpassAPI.residential_nodes self)
  \/
  (el_type (re_keys element) = Some "way" /\
   OverpassAPI.nodes self' = OverpassAPI.nodes self /\
   OverpassAPI.power_objects self' = OverpassAPI.power_objects self /\
   OverpassAPI.ways self' = OverpassAPI.ways self ++ [re_keys element] /\
   OverpassAPI.residential_nodes self' = OverpassAPI.residential_nodes self)
  \/
  (el_type (re_keys element) <> Some "node" /\
   el_type (re_keys element) <> Some "way" /\ self' = self).
Proof.
  unfold OverpassAPI.store_element. intros H.
  destruct (el_type (re_keys element)) as [ty|]; [|discriminate].
  cbn [el_getitem mbind result_bind] in H.
  destruct (String.eqb_spec ty "node") as [Heq|Hnode].
  - subst ty. left.
    destruct (el_lat (re_keys element)) as [lat|]; [|discriminate].
    destruct (el_lon (re_keys element)) as [lon|]; [|discriminate].
    destruct (re_id element) as [id|]; [|discriminate].
    cbn [el_getitem mbind result_bind] in H. injection H as <-.
    exists lat, lon, id. cbn [OverpassAPI.nodes OverpassAPI.power_objects
                                OverpassAPI.ways OverpassAPI.residential_nodes].
    repeat (split; [reflexivity|]). split; [|split; reflexivity].
    destruct (bool_decide _ && bool_decide _);
      destruct (default ∅ (el_tags (re_keys element)) !! "power").
    + eexists [_; _]. rewrite <- app_assoc. split; [|reflexivity].
      repeat constructor.
    + eexists [_]. split; [|reflexivity]. repeat constructor.
    + eexists [_]. split; [|reflexivity]. repeat constructor.
    + exists []. rewrite app_nil_r. split; [constructor | reflexivity].
  - destruct (String.eqb_spec ty "way") as [Heq|Hway].
    + subst ty. right; left. injection H as <-. repeat split; reflexivity.
    + right; right. injection H as <-. repeat split; congruence.
Qed.


Lemma fetch_power_objects_nodes_invariant (elements : list response_element) :
  forall self self',
  Forall (fun obj => is_Some (OverpassAPI.nodes self !! obj.1))
         (OverpassAPI.power_objects self) ->
  OverpassAPI.fetch_power_objects elements self = Ok self' ->
  Forall (fun obj => is_Some (OverpassAPI.nodes self' !! obj.1))
         (OverpassAPI.power_objects self').
Proof.
  intros self self'. unfold OverpassAPI.fetch_power_objects.
  apply (for_each_invariant
           (fun api => Forall (fun obj => is_Some (OverpassAPI.nodes api !! obj.1))
                         (OverpassAPI.power_objects api))).
  intros element api api' _ Hinv Hstore.
  apply store_element_Ok_inv in Hstore
    as [(lat & lon & id & _ & _ & _ & _ & Hn & (added & Hadded & Hp) & _ & _)
       |[(_ & Hn & Hp & _ & _)|(_ & _ & ->)]]; [| |exact Hinv].
  - rewrite Hn, Hp. apply Forall_app. split.
    + eapply Forall_impl; [exact Hinv|]. intros obj Hobj.
      apply lookup_insert_is_Some'. right; exact Hobj.
    + eapply Forall_impl; [exact Hadded|]. intros obj ->.
      rewrite lookup_insert_eq. eauto.
  - rewrite Hn, Hp. exact Hinv.
Qed.

Lemma fetch_power_objects_residential (elements : list response_element) :
  forall self self',
  OverpassAPI.fetch_power_objects elements self = Ok self' ->
  OverpassAPI.residential_nodes self' = OverpassAPI.residential_nodes self.
Proof.
  intros self self'. unfold OverpassAPI.fetch_power_objects.
  intros H.
  apply (for_each_invariant
           (fun api => OverpassAPI.residential_nodes api
                       = OverpassAPI.residential_nodes self)
           elements OverpassAPI.store_element) with (s := self);
    [|reflexivity|exact H].
  intros element api api' _ Hinv Hstore.
  apply store_element_Ok_inv in Hstore
    as [(lat & lon & id & _ & _ & _ & _ & _ & _ & _ & Hr)
       |[(_ & _ & _ & _ & Hr)|(_ & _ & ->)]]; congruence.
Qed.

(** X6. After [fetch_power_objects] every collected point object names a
    node of the node table, if that holds before (as it does for a new
    [OverpassAPI]): the lookup [self.nodes[node_id]] of the point pass
    cannot fail on what was fetched. *)
Theorem fetched_objects_have_nodes
    (elements : list response_element) (self self' : OverpassAPI.t) :
  Forall (fun obj => is_Some (OverpassAPI.nodes self !! obj.1))
         (OverpassAPI.power_objects self) ->
  OverpassAPI.fetch_power_objects elements self = Ok self' ->
  Forall (fun obj => is_Some (nodes (map_creator_of self') !! obj.1))
         (power_objects (map_creator_of self')).
Proof.
  intros Hinv H. cbn [map_creator_of nodes power_objects].
  exact (fetch_power_objects_nodes_invariant elements self self' Hinv H).
Qed.

Lemma fetched_objects_have_nodes_witness :
  exists api, OverpassAPI.fetch_power_objects sample_response OverpassAPI.init
              = Ok api /\
    Forall (fun obj => is_Some (nodes (map_creator_of api) !! obj.1))
           (power_objects (map_creator_of api)).
Proof.
  eexists. split; [reflexivity|].
  apply (fetched_objects_have_nodes sample_response OverpassAPI.init).
  - constructor.
  - reflexivity.
Defined.

(** X7. The node table keeps the coordinates of the last element of the
    response that is a node with a given id: an earlier element with the
    same id is overwritten. *)
Theorem fetched_node_last_wins
    (before after : list response_element) (element : response_element)
    (self self' : OverpassAPI.t) (id : Z) (lat lon : float) :
  OverpassAPI.fetch_power_objects (before ++ element :: after) self = Ok self' ->
  el_type (re_keys element) = Some "node" ->
  re_id element = Some id ->
  el_lat (re_keys element) = Some lat -> el_lon (re_keys element) = Some lon ->
  Forall (fun el => ~ (el_type (re_keys el) = Some "node" /\ re_id el = Some id))
         after ->
  OverpassAPI.nodes self' !! id = Some (lat, lon).
Proof.
  unfold OverpassAPI.fetch_power_objects.
  intros H Hty Hid Hlat Hlon Hafter. rewrite for_each_app in H.
  destruct (for_each before OverpassAPI.store_element self) as [s1|e];
    [|discriminate].
  cbn [mbind result_bind for_each] in H.
  destruct (OverpassAPI.store_element element s1) as [s2|e] eqn:Hel;
    [|discriminate].
  cbn [mbind result_bind] in H.
  apply (for_each_invariant
           (fun api => OverpassAPI.nodes api !! id = Some (lat, lon))
           after OverpassAPI.store_element) with (s := s2); [| |exact H].
  - intros el api api' Hin Hinv Hstore.
    rewrite Forall_forall in Hafter. specialize (Hafter el Hin).
    apply store_element_Ok_inv in Hstore
      as [(lat' & lon' & id' & Hty' & _ & _ & Hid' & Hn & _)
         |[(_ & Hn & _)|(_ & _ & ->)]]; [| |exact Hinv].
    + rewrite Hn, lookup_insert_ne; [exact Hinv|].
      intros ->. apply Hafter. auto.
    + rewrite Hn. exact Hinv.
  - apply store_element_Ok_inv in Hel
      as [(lat' & lon' & id' & _ & Hlat' & Hlon' & Hid' & Hn & _)
         |[(Hway & _)|(Hnot & _)]]; [|congruence|congruence].
    rewrite Hn. replace id' with id by congruence.
    rewrite lookup_insert_eq. congruence.
Qed.

Lemma fetched_node_last_wins_witness :
  exists api, OverpassAPI.fetch_power_objects sample_response OverpassAPI.init
              = Ok api /\
    OverpassAPI.nodes api !! 1 = Some (50.5, 40.5)%float.
Proof.
  eexists. split; [reflexivity|].
  apply (fetched_node_last_wins [tower_element; substation_element; way_element]
           [pole_element] moved_element OverpassAPI.init _ 1 50.5 40.5);
    try reflexivity.
  constructor; [|constructor]. intros [_ H]. discriminate.
Defined.

(** X8. [fetch_power_objects] appends to [ways], in the order of the
    response, the elements of type [way] and nothing else, and leaves the
    residential records as they are. *)
Theorem fetched_ways_in_order
    (elements : list response_element) (self self' : OverpassAPI.t) :
  OverpassAPI.fetch_power_objects elements self = Ok self' ->
  OverpassAPI.ways self' =
  OverpassAPI.ways self
  ++ map re_keys
       (filter (fun el => el_type (re_keys el) = Some "way") elements) /\
  OverpassAPI.residential_nodes self' = OverpassAPI.residential_nodes self.
Proof.
  intros H. split; [|exact (fetch_power_objects_residential _ _ _ H)].
  revert self H. unfold OverpassAPI.fetch_power_objects.
  induction elements as [|el elements IH]; intros self H.
  - cbn in H. injection H as <-. cbn. rewrite app_nil_r. reflexivity.
  - cbn [for_each] in H.
    destruct (OverpassAPI.store_element el self) as [s1|e] eqn:Hel;
      [|discriminate].
    cbn [mbind result_bind] in H. rewrite (IH s1 H).
    apply store_element_Ok_inv in Hel
      as [(lat & lon & id & Hty & _ & _ & _ & _ & _ & Hw & _)
         |[(Hty & _ & _ & Hw & _)|(_ & Hty & ->)]].
    + rewrite filter_cons_False by congruence. rewrite Hw. reflexivity.
    + rewrite filter_cons_True by assumption. rewrite Hw.
      cbn [map]. rewrite <- app_assoc. reflexivity.
    + rewrite filter_cons_False by assumption. reflexivity.
Qed.

Lemma fetched_ways_in_order_witness :
  exists api, OverpassAPI.fetch_power_objects sample_response OverpassAPI.init
              = Ok api /\
    OverpassAPI.ways api = [line_750kV] /\
    OverpassAPI.residential_nodes api = [].
Proof.
  eexists. split; [reflexivity|].
  exact (fetched_ways_in_order sample_response OverpassAPI.init _ eq_refl).
Defined.

(* ===================================================================== *)
(** ** The kind of a node with a [power] tag *)

Lemma initial_S (c : ascii) :
  PyStr.upper_char c = "S"%char <-> PyStr.lower_char c = "s"%char.
Proof.
  destruct c as [[] [] [] [] [] [] [] []]; vm_compute; split; intros H;
    first [reflexivity | discriminate H].
Qed.

Lemma initial_T (c : ascii) :
  PyStr.upper_char c = "T"%char <-> PyStr.lower_char c = "t"%char.
Proof.
  destruct c as [[] [] [] [] [] [] [] []]; vm_compute; split; intros H;
    first [reflexivity | discriminate H].
Qed.

Lemma initial_C (c : ascii) :
  PyStr.upper_char c = "C"%char <-> PyStr.lower_char c = "c"%char.
Proof.
  destruct c as [[] [] [] [] [] [] [] []]; vm_compute; split; intros H;
    first [reflexivity | discriminate H].
Qed.

Lemma lower_char_idem (c : ascii) :
  PyStr.lower_char (PyStr.lower_char c) = PyStr.lower_char c.
Proof. destruct c as [[] [] [] [] [] [] [] []]; reflexivity. Qed.

Lemma lower_idem (s : string) : PyStr.lower (PyStr.lower s) = PyStr.lower s.
Proof.
  induction s as [|c s IH]; [reflexivity|].
  cbn [PyStr.lower]. rewrite lower_char_idem, IH. reflexivity.
Qed.

Lemma String_eq_iff (a b : ascii) (s t : string) :
  String a s = String b t <-> a = b /\ s = t.
Proof. split; [intros [= -> ->]; auto | intros [-> ->]; reflexivity]. Qed.

Lemma capitalize_recognized (tag : string) :
  PyStr.capitalize tag ∈ recognized_kinds <->
  PyStr.lower tag ∈ ["substation"; "transformer"; "converter"].
Proof.
  unfold recognized_kinds. rewrite !elem_of_cons, !elem_of_nil.
  destruct tag as [|c rest].
  - cbn. split; intros H; repeat destruct H as [H|H]; try discriminate H;
      contradiction.
  - cbn [PyStr.capitalize PyStr.lower]. rewrite !String_eq_iff.
    rewrite initial_S, initial_T, initial_C.
    assert (Hno : PyStr.lower rest <> "ommunication Tower").
    { intros H. pose proof (lower_idem rest) as Hi. rewrite H in Hi.
      vm_compute in Hi. discriminate Hi. }
    tauto.
Qed.

(** X9. A node with a [power] tag is collected under the capitalised
    value of the tag, and that kind is one of the recognised ones exactly
    when the value, in lower case, is substation, transformer or
    converter; no value of the tag gives the kind of a communication
    tower. *)
Theorem power_tag_kind
    (element : response_element) (self self' : OverpassAPI.t)
    (id : Z) (tag : string) :
  OverpassAPI.store_element element self = Ok self' ->
  el_type (re_keys element) = Some "node" ->
  re_id element = Some id ->
  default ∅ (el_tags (re_keys element)) !! "power" = Some tag ->
  last (OverpassAPI.power_objects self') = Some (id, PyStr.capitalize tag) /\
  (PyStr.capitalize tag ∈ recognized_kinds <->
   PyStr.lower tag ∈ ["substation"; "transformer"; "converter"]) /\
  PyStr.capitalize tag <> "Communication Tower".
Proof.
  intros H Hty Hid Htag. split; [|split; [apply capitalize_recognized|]].
  - unfold OverpassAPI.store_element in H. rewrite Hty in H.
    cbn [el_getitem mbind result_bind String.eqb] in H.
    change (String.eqb "node" "node") with true in H. cbn iota in H.
    destruct (el_lat (re_keys element)) as [lat|]; [|discriminate].
    destruct (el_lon (re_keys element)) as [lon|]; [|discriminate].
    rewrite Hid, Htag in H. cbn [el_getitem mbind result_bind] in H.
    injection H as <-. cbn [OverpassAPI.power_objects]. apply last_snoc.
  - intros Heq. destruct tag as [|c rest]; [discriminate|].
    cbn [PyStr.capitalize] in Heq. apply String_eq_iff in Heq as [_ Hrest].
    pose proof (lower_idem rest) as Hi. rewrite Hrest in Hi.
    vm_compute in Hi. discriminate Hi.
Qed.

Lemma power_tag_kind_witness :
  last (OverpassAPI.power_objects
          {| OverpassAPI.nodes := {[ 2 := (50, 40.0009765625)%float ]};
             OverpassAPI.power_objects := [(2, "Substation")];
             OverpassAPI.ways := []; OverpassAPI.residential_nodes := [] |})
  = Some (2, PyStr.capitalize "SUBSTATION") /\
  (PyStr.capitalize "SUBSTATION" ∈ recognized_kinds <->
   PyStr.lower "SUBSTATION" ∈ ["substation"; "transformer"; "converter"]) /\
  PyStr.capitalize "SUBSTATION" <> "Communication Tower".
Proof.
  apply (power_tag_kind substation_element OverpassAPI.init); reflexivity.
Defined.

(* ===================================================================== *)
(** ** The request handler *)

Lemma read_options_none (method : string) (form : gmap string string) :
  method <> "POST" \/ Forall (fun key => form !! key = None) option_keys ->
  any_option (read_options method form) = false.
Proof.
  unfold read_options, any_option, option_keys.
  destruct (String.eqb_spec method "POST") as [->|Hne]; intros [H|H];
    try contradiction; try reflexivity.
  rewrite !Forall_cons in H. destruct H as (H1 & H2 & H3 & H4 & H5 & _).
  cbn [map existsb snd]. rewrite H1, H2, H3, H4, H5. reflexivity.
Qed.



(** With no residential record a returned map has no warning marker. *)
Lemma run_no_residential_no_warning
    (geodesic : float * float -> float * float -> float)
    (self : MapCreator) (m : Map) :
  residential_nodes self = [] ->
  create_map_optimized geodesic self = Ok m ->
  List.filter is_warning (children m) = [].
Proof.
  intros Hres H. destruct (decide (size (nodes self) = 0%nat)) as [Hz|Hn].
  - unfold create_map_optimized in H. rewrite Hz in H. cbn in H.
    injection H as <-. reflexivity.
  - destruct (run_structure geodesic self m Hn H)
      as (point_outs & way_outs & Hpo & Hwo & ->).
    assert (Hnil : forall hits,
              Forall (fun c => is_warning c = true /\
                               hit_justified geodesic self c) hits ->
              hits = []).
    { intros [|c hits] Hhits; [reflexivity|]. exfalso.
      inversion Hhits as [|? ? [_ Hc] _]; subst.
      destruct Hc as [(? & ? & ? & ? & _ & _ & _ & r & res & Hin & _)
                     |(? & ? & ? & ? & ? & _ & _ & _ & _ & r & res & Hin & _)];
        rewrite Hres in Hin; apply elem_of_nil in Hin; contradiction. }
    cbn [children]. rewrite List.filter_app.
    rewrite (filter_concat_none is_warning point_outs),
            (filter_concat_none is_warning way_outs); [reflexivity| |].
    + eapply Forall2_Forall_r; [exact Hwo|]. apply Forall_forall.
      intros way _ out (way_nodes & hits & _ & -> & Hhits).
      rewrite (Hnil hits Hhits). reflexivity.
    + eapply Forall2_Forall_r; [exact Hpo|]. apply Forall_forall.
      intros obj _ out (q & hits & _ & -> & Hhits).
      rewrite (Hnil hits Hhits). reflexivity.
Qed.

(** X10. A request that selects no option (any request that is not a
    POST, or a POST whose form has none of the five option keys) does not
    fetch the buildings, and the map it produces has no warning marker,
    whatever the service answers. *)
Theorem index_without_options
    (geodesic : float * float -> float * float -> float)
    (power_response : string -> list (string * bool) -> list response_element)
    (buildings_response : string -> list response_element)
    (method : string) (form : gmap string string) (m : Map) :
  method <> "POST" \/ Forall (fun key => form !! key = None) option_keys ->
  index geodesic power_response buildings_response method form = Ok m ->
  List.filter is_warning (children m) = [].
Proof.
  intros Hnone H. unfold index in H.
  rewrite (read_options_none method form Hnone) in H.
  destruct (OverpassAPI.fetch_power_objects _ _) as [api|e] eqn:Hfetch;
    [|discriminate].
  cbn [mbind result_bind] in H.
  apply (run_no_residential_no_warning geodesic (map_creator_of api));
    [|exact H].
  cbn [map_creator_of residential_nodes].
  apply (fetch_power_objects_residential _ _ _ Hfetch).
Qed.

Lemma index_without_options_witness :
  exists m,
    index plane_distance (fun _ _ => sample_response)
      (fun _ => [{| re_id := Some 20; re_keys := house_near |}])
      "GET" ∅ = Ok m /\
    List.filter is_warning (children m) = [].
Proof.
  eexists. split; [reflexivity|].
  apply (index_without_options plane_distance (fun _ _ => sample_response)
           (fun _ => [{| re_id := Some 20; re_keys := house_near |}])
           "GET" ∅).
  - left. discriminate.
  - reflexivity.
Defined.



(* ===================================================================== *)
(** ** The order of the voltages *)

Lemma split_no_sep (sep : ascii) (s : string) :
  has_char sep s = false -> Py.split sep s = [s].
Proof.
  induction s as [|c rest IH]; [reflexivity|].
  cbn [has_char Py.split]. intros H. apply orb_false_iff in H as [Hc Hrest].
  rewrite Hc, (IH Hrest). reflexivity.
Qed.

Lemma split_app_sep (sep : ascii) (tok s : string) :
  has_char sep tok = false ->
  Py.split sep (tok ++ String sep s)%string = tok :: Py.split sep s.
Proof.
  induction tok as [|c tok IH]; intros H.
  - change (Py.split sep (String sep s) = "" :: Py.split sep s).
    cbn [Py.split]. rewrite Ascii.eqb_refl. reflexivity.
  - cbn [has_char] in H. apply orb_false_iff in H as [Hc Htok].
    change (Py.split sep (String c (tok ++ String sep s))
            = String c tok :: Py.split sep s).
    cbn [Py.split]. rewrite Hc, (IH Htok). reflexivity.
Qed.

(** Splitting the join of tokens without separator gives the tokens. *)
Lemma split_join (sep : ascii) (tokens : list string) :
  tokens <> [] ->
  Forall (fun tok => has_char sep tok = false) tokens ->
  Py.split sep (join sep tokens) = tokens.
Proof.
  induction tokens as [|tok rest IH]; intros Hne Hall; [congruence|].
  inversion Hall as [|? ? Htok Hrest]; subst.
  destruct rest as [|tok2 rest].
  - cbn [join]. apply split_no_sep; assumption.
  - change (join sep (tok :: tok2 :: rest))
      with (tok ++ String sep (join sep (tok2 :: rest)))%string.
    rewrite (split_app_sep sep tok _ Htok), IH; [reflexivity|discriminate|assumption].
Qed.

Lemma Forall2_elem_of_r {A B} (f : A -> option B) (xs : list A) (ys : list B) :
  Forall2 (fun x y => f x = Some y) xs ys ->
  forall y, y ∈ ys <-> exists x, x ∈ xs /\ f x = Some y.
Proof.
  induction 1 as [|x y xs ys Hxy _ IH]; intros z.
  - rewrite elem_of_nil. split; [tauto|]. intros (x & Hx & _).
    apply elem_of_nil in Hx. exact Hx.
  - rewrite elem_of_cons, IH. split.
    + intros [->|(x' & Hin & Hf)]; [exists x | exists x']; split;
        auto using list_elem_of_here, list_elem_of_further.
    + intros (x' & Hin & Hf). apply elem_of_cons in Hin as [->|Hin].
      * left. congruence.
      * right. eauto.
Qed.

(** The thickness of the tokens of a field. *)
Lemma get_thickness_join (tokens : list string) :
  tokens <> [] ->
  Forall (fun tok => has_char ";" tok = false) tokens ->
  join ";" tokens <> "" ->
  get_thickness (join ";" tokens) =
  match mapM Py.int tokens ≫= Py.max with
  | None => 20
  | Some max_voltage => thickness_by_range max_voltage
  end.
Proof.
  intros Hne Hall Hjoin. rewrite (get_thickness_nonempty _ Hjoin).
  unfold parse_voltages. rewrite (split_join ";" tokens Hne Hall). reflexivity.
Qed.

Lemma max_tokens_perm (tokens tokens' : list string) :
  tokens ≡ₚ tokens' ->
  mapM Py.int tokens ≫= Py.max = mapM Py.int tokens' ≫= Py.max.
Proof.
  intros Hperm.
  destruct (mapM Py.int tokens) as [vs|] eqn:Hvs.
  - destruct (mapM Py.int tokens') as [vs'|] eqn:Hvs'.
    + apply mapM_Some in Hvs, Hvs'.
      pose proof (Forall2_elem_of_r _ _ _ Hvs) as Hin.
      pose proof (Forall2_elem_of_r _ _ _ Hvs') as Hin'.
      assert (Hsame : forall v, v ∈ vs <-> v ∈ vs').
      { intros v. rewrite Hin, Hin'. split; intros (t & Ht & Hf); exists t;
          (split; [|exact Hf]); [rewrite <- Hperm | rewrite Hperm]; exact Ht. }
      cbn [mbind option_bind].
      destruct (Py.max vs) as [m|] eqn:Hm, (Py.max vs') as [m'|] eqn:Hm'.
      * apply max_is_maximum in Hm as [Hmin Hmle], Hm' as [Hmin' Hmle'].
        f_equal. apply Z.le_antisymm.
        -- apply Hmle'. apply Hsame. exact Hmin.
        -- apply Hmle. apply Hsame. exact Hmin'.
      * exfalso. destruct vs' as [|v' vs']; [|discriminate].
        apply max_is_maximum in Hm as [Hmin _]. apply Hsame in Hmin.
        apply elem_of_nil in Hmin. exact Hmin.
      * exfalso. destruct vs as [|v vs]; [|discriminate].
        apply max_is_maximum in Hm' as [Hmin _]. apply Hsame in Hmin.
        apply elem_of_nil in Hmin. exact Hmin.
      * reflexivity.
    + exfalso. apply mapM_None in Hvs'. rewrite <- Hperm in Hvs'.
      apply mapM_None in Hvs'. congruence.
  - apply mapM_None in Hvs. rewrite Hperm in Hvs. apply mapM_None in Hvs.
    rewrite Hvs. reflexivity.
Qed.

(** X12. The thickness does not depend on the order in which the
    voltages are listed: two fields whose semicolon-separated tokens are
    the same up to order have the same thickness. *)
Theorem get_thickness_order (tokens tokens' : list string) :
  tokens <> [] ->
  Forall (fun tok => has_char ";" tok = false) tokens ->
  tokens ≡ₚ tokens' ->
  get_thickness (join ";" tokens) = get_thickness (join ";" tokens').
Proof.
  intros Hne Hall Hperm.
  assert (Hne' : tokens' <> []).
  { intros ->. apply Permutation_nil_r in Hperm. contradiction. }
  assert (Hall' : Forall (fun tok => has_char ";" tok = false) tokens')
    by (rewrite <- Hperm; exact Hall).
  destruct (String.eqb_spec (join ";" tokens) "") as [Hj|Hj].
  - assert (tokens = [""]) as ->.
    { rewrite <- (split_join ";" tokens Hne Hall), Hj. reflexivity. }
    apply Permutation_singleton_l in Hperm as ->. reflexivity.
  - destruct (String.eqb_spec (join ";" tokens') "") as [Hj'|Hj'].
    + assert (tokens' = [""]) as ->.
      { rewrite <- (split_join ";" tokens' Hne' Hall'), Hj'. reflexivity. }
      apply Permutation_singleton_r in Hperm as ->. reflexivity.
    + rewrite (get_thickness_join tokens Hne Hall Hj),
              (get_thickness_join tokens' Hne' Hall' Hj'),
              (max_tokens_perm tokens tokens' Hperm).
      reflexivity.
Qed.

Lemma get_thickness_order_witness :
  get_thickness "50000;110000;35000" = get_thickness "35000;50000;110000".
Proof.
  apply (get_thickness_order ["50000"; "110000"; "35000"]
           ["35000"; "50000"; "110000"]).
  - discriminate.
  - repeat constructor.
  - apply (bool_decide_unpack _). vm_compute. exact I.
Defined.

(** X13. Whatever the voltage text, the thickness is one of the eight
    values 2, 10, 15, 20, 25, 30, 40 and 55. *)
Theorem get_thickness_values (voltage : string) :
  get_thickness voltage ∈ [2; 10; 15; 20; 25; 30; 40; 55].
Proof.
  apply list_elem_of_In.
  destruct (String.eqb_spec voltage "") as [->|Hne]; [cbn; auto 10|].
  rewrite (get_thickness_nonempty _ Hne).
  destruct (parse_voltages voltage ≫= Py.max); [|cbn; auto 10].
  unfold thickness_by_range. repeat case_decide; cbn; auto 10.
Qed.

(* ===================================================================== *)
(** ** No hit inside a box is missed *)

(** A child added by the body of one element of a loop whose bodies only
    add children is in the result of the loop. *)
Lemma for_each_reaches {A} (xs : list A) (body : A -> Map -> result Map)
    (c : child) (x : A) :
  (forall y t t', body y t = Ok t' ->
     forall d, d ∈ children t -> d ∈ children t') ->
  (forall t t', body x t = Ok t' -> c ∈ children t') ->
  x ∈ xs ->
  forall m m', for_each xs body m = Ok m' -> c ∈ children m'.
Proof.
  intros Hmono Hx. induction xs as [|y xs IH]; intros Hin m m' H.
  - apply elem_of_nil in Hin. contradiction.
  - cbn [for_each] in H. destruct (body y m) as [m1|e] eqn:Hy; [|discriminate].
    cbn [mbind result_bind] in H.
    apply elem_of_cons in Hin as [<-|Hin]; [|exact (IH Hin m1 m' H)].
    apply (for_each_invariant (fun t => c ∈ children t) xs body)
      with (s := m1); [|exact (Hx m m1 Hy)|exact H].
    intros z t t' _ Hc Hz. exact (Hmono z t t' Hz c Hc).
Qed.

Lemma add_all_children_l (out : list child) (m : Map) (d : child) :
  d ∈ children m -> d ∈ children (add_all out m).
Proof. intros H. cbn. apply elem_of_app. left; exact H. Qed.

Lemma add_all_children_r (out : list child) (m : Map) (d : child) :
  d ∈ out -> d ∈ children (add_all out m).
Proof. intros H. cbn. apply elem_of_app. right; exact H. Qed.

Lemma elem_of_concat_Forall2 {A} (P : A -> list child -> Prop)
    (xs : list A) (outs : list (list child)) (x : A) (c : child) :
  Forall2 P xs outs -> x ∈ xs ->
  (forall out, P x out -> c ∈ out) -> c ∈ concat outs.
Proof.
  intros HF Hin Hc. induction HF as [|y out xs outs Hy _ IH].
  - apply elem_of_nil in Hin. contradiction.
  - cbn [concat]. apply elem_of_app.
    apply elem_of_cons in Hin as [->|Hin]; [left; exact (Hc out Hy)|].
    right. exact (IH Hin).
Qed.

Section Completeness.

Variable geodesic : float * float -> float * float -> float.
Variable self : MapCreator.
Variable res_index : rtree.Index.
Hypothesis Hindex : build_index (residential_nodes self) = Ok res_index.

Lemma power_object_grows obj t t' :
  process_power_object geodesic self res_index obj t = Ok t' ->
  forall d, d ∈ children t -> d ∈ children t'.
Proof.
  destruct obj as [node_id type_]. intros H d Hd.
  destruct (power_object_out geodesic self res_index Hindex node_id type_ t t' H)
    as (p & hits & _ & -> & _).
  apply add_all_children_l; exact Hd.
Qed.

Lemma way_grows way t t' :
  process_way geodesic self res_index way t = Ok t' ->
  forall d, d ∈ children t -> d ∈ children t'.
Proof.
  intros H d Hd.
  destruct (way_out geodesic self res_index Hindex way t t' H)
    as (way_nodes & hits & _ & _ & -> & _).
  apply add_all_children_l; exact Hd.
Qed.

Lemma segment_grows way points i t t' :
  process_segment geodesic self res_index way points i t = Ok t' ->
  forall d, d ∈ children t -> d ∈ children t'.
Proof.
  intros H d Hd.
  destruct (points !! i) as [sp|] eqn:Hs;
    [|unfold process_segment, list_getitem in H; rewrite Hs in H; discriminate].
  destruct (points !! (i + 1)%nat) as [ep|] eqn:He;
    [|unfold process_segment, list_getitem in H; rewrite Hs, He in H;
      discriminate].
  destruct (segment_emit geodesic self res_index way points i sp ep
              Hindex Hs He) as (emitted & _ & Hrun).
  rewrite Hrun in H. injection H as <-. apply add_all_children_l; exact Hd.
Qed.

(** A residential record in the box of a point object of a known kind,
    within the threshold, is flagged when the object is processed. *)
Lemma power_object_flags node_id type_ lat lon threshold
    pos res_node res_lat res_lon t t' :
  nodes self !! node_id = Some (lat, lon) ->
  distances !! type_ = Some threshold ->
  residential_nodes self !! pos = Some res_node ->
  el_lat res_node = Some res_lat -> el_lon res_node = Some res_lon ->
  rtree.intersects (res_lon, res_lat, res_lon, res_lat) (point_box lat lon)
  = true ->
  (geodesic (lat, lon) (res_lat, res_lon) <=? Py.float_of_int threshold)%float
  = true ->
  process_power_object geodesic self res_index (node_id, type_) t = Ok t' ->
  hit_marker (res_lat, res_lon) "Residential Building near Power Object"
  ∈ children t'.
Proof.
  intros Hnode Hkind Hl Hlat Hlon Hbox Hle H.
  destruct (candidates_emit self res_index (point_box lat lon)
              (check_point_candidate geodesic self type_ lat lon)
              (fun res => if (geodesic (lat, lon) res
                              <=? Py.float_of_int threshold)%float
                          then [hit_marker res
                                  "Residential Building near Power Object"]
                          else []) Hindex) as (emitted & Hem & Hrun).
  { intros idx e rlat rlon m Hl' Hlat' Hlon'.
    apply (check_point_candidate_known geodesic self type_ threshold lat lon
             idx e rlat rlon m Hl' Hlat' Hlon' Hkind). }
  unfold process_power_object in H. rewrite Hnode in H.
  cbn -[colors] in H. fold (point_box lat lon) in H. rewrite Hrun in H.
  injection H as <-. apply add_all_children_r.
  apply (elem_of_concat_Forall2 _ _ _ pos _ Hem).
  - apply (elem_of_intersection_built _ _ _ _ Hindex).
    exists res_node, res_lat, res_lon. auto.
  - intros out (e & rlat & rlon & Hl' & Hlat' & Hlon' & ->).
    assert (e = res_node) as -> by congruence.
    assert (rlat = res_lat) as -> by congruence.
    assert (rlon = res_lon) as -> by congruence.
    rewrite Hle. left.
Qed.

(** A residential record in the box of a segment, the smaller of whose
    distances to the two ends is within the thickness, is flagged when the
    segment is processed. *)
Lemma segment_flags way points i start_point end_point
    pos res_node res_lat res_lon t t' :
  points !! i = Some start_point -> points !! (i + 1)%nat = Some end_point ->
  residential_nodes self !! pos = Some res_node ->
  el_lat res_node = Some res_lat -> el_lon res_node = Some res_lon ->
  rtree.intersects (res_lon, res_lat, res_lon, res_lat)
    (segment_box start_point end_point) = true ->
  (Py.fmin (geodesic start_point (res_lat, res_lon))
           (geodesic end_point (res_lat, res_lon))
   <=? Py.float_of_int (get_thickness (way_voltage way)))%float = true ->
  process_segment geodesic self res_index way points i t = Ok t' ->
  hit_marker (res_lat, res_lon) "Residential Building near Power Line"
  ∈ children t'.
Proof.
  intros Hs He Hl Hlat Hlon Hbox Hle H.
  destruct (segment_emit geodesic self res_index way points i start_point
              end_point Hindex Hs He) as (emitted & Hem & Hrun).
  rewrite Hrun in H. injection H as <-. apply add_all_children_r.
  apply (elem_of_concat_Forall2 _ _ _ pos _ Hem).
  - apply (elem_of_intersection_built _ _ _ _ Hindex).
    exists res_node, res_lat, res_lon. auto.
  - intros out (e & rlat & rlon & Hl' & Hlat' & Hlon' & ->).
    assert (e = res_node) as -> by congruence.
    assert (rlat = res_lat) as -> by congruence.
    assert (rlon = res_lon) as -> by congruence.
    rewrite line_threshold_id, Hle. left.
Qed.

Lemma way_flags way way_nodes i start_point end_point
    pos res_node res_lat res_lon t t' :
  el_nodes way = Some way_nodes ->
  resolve_points self way_nodes !! i = Some start_point ->
  resolve_points self way_nodes !! (i + 1)%nat = Some end_point ->
  residential_nodes self !! pos = Some res_node ->
  el_lat res_node = Some res_lat -> el_lon res_node = Some res_lon ->
  rtree.intersects (res_lon, res_lat, res_lon, res_lat)
    (segment_box start_point end_point) = true ->
  (Py.fmin (geodesic start_point (res_lat, res_lon))
           (geodesic end_point (res_lat, res_lon))
   <=? Py.float_of_int (get_thickness (way_voltage way)))%float = true ->
  process_way geodesic self res_index way t = Ok t' ->
  hit_marker (res_lat, res_lon) "Residential Building near Power Line"
  ∈ children t'.
Proof.
  intros Hnodes Hs He Hl Hlat Hlon Hbox Hle H.
  unfold process_way, el_getitem in H. rewrite Hnodes in H.
  cbn [mbind result_bind] in H.
  destruct (for_each _ _ t) as [t1|e] eqn:Hloop; [|discriminate].
  cbn [mbind result_bind] in H.
  destruct (folium_PolyLine _ _ _ _) as [polyline|e]; [|discriminate].
  cbn in H. injection H as <-. apply add_all_children_l.
  rewrite range_length in Hloop.
  eapply (for_each_reaches _ _ _ i); [| | |exact Hloop].
  - intros j u u' Hj. exact (segment_grows way _ j u u' Hj).
  - intros u u' Hu.
    exact (segment_flags way _ i start_point end_point pos res_node
             res_lat res_lon u u' Hs He Hl Hlat Hlon Hbox Hle Hu).
  - apply elem_of_seq. apply lookup_lt_Some in He. lia.
Qed.

End Completeness.

Lemma run_Ok_inv (geodesic : float * float -> float * float -> float)
    (self : MapCreator) (m : Map) :
  size (nodes self) <> 0%nat ->
  create_map_optimized geodesic self = Ok m ->
  exists res_index m1,
    build_index (residential_nodes self) = Ok res_index /\
    for_each (power_objects self)
      (process_power_object geodesic self res_index)
      {| zoom_start := 12; children := [] |} = Ok m1 /\
    for_each (ways self) (process_way geodesic self res_index) m1 = Ok m.
Proof.
  intros Hn H. unfold create_map_optimized in H.
  destruct (size (nodes self)) as [|n]; [congruence|]. cbn [Nat.eqb] in H.
  destruct (build_index (residential_nodes self)) as [res_index|e];
    [|discriminate].
  cbn [mbind result_bind] in H.
  destruct (for_each (power_objects self) _ _) as [m1|e] eqn:Hpoints;
    [|discriminate].
  cbn [mbind result_bind] in H.
  destruct (for_each (ways self) _ _) as [m2|e] eqn:Hways; [|discriminate].
  cbn in H. injection H as <-. exists res_index, m1. auto.
Qed.

Lemma lookup_size_ne_0 (self : MapCreator) (node_id : Z) (p : float * float) :
  nodes self !! node_id = Some p -> size (nodes self) <> 0%nat.
Proof.
  intros Hp Hz. apply map_size_empty_iff in Hz. rewrite Hz in Hp.
  rewrite lookup_empty in Hp. discriminate.
Qed.

(** X14. No hit of a point object inside its box is missed: when a map is
    returned, a residential record that lies in the padded box of a point
    object of a recognised kind and whose distance to it is at most the
    threshold of the kind has its warning marker on the map. *)
Theorem run_flags_point_hits
    (geodesic : float * float -> float * float -> float)
    (self : MapCreator) (m : Map)
    (node_id : Z) (type_ : string) (lat lon : float) (threshold : Z)
    (res_node : element) (res_lat res_lon : float) :
  create_map_optimized geodesic self = Ok m ->
  (node_id, type_) ∈ power_objects self ->
  nodes self !! node_id = Some (lat, lon) ->
  distances !! type_ = Some threshold ->
  res_node ∈ residential_nodes self ->
  el_lat res_node = Some res_lat -> el_lon res_node = Some res_lon ->
  rtree.intersects (res_lon, res_lat, res_lon, res_lat) (point_box lat lon)
  = true ->
  (geodesic (lat, lon) (res_lat, res_lon) <=? Py.float_of_int threshold)%float
  = true ->
  hit_marker (res_lat, res_lon) "Residential Building near Power Object"
  ∈ children m.
Proof.
  intros H Hobj Hnode Hkind Hres Hlat Hlon Hbox Hle.
  destruct (run_Ok_inv geodesic self m (lookup_size_ne_0 _ _ _ Hnode) H)
    as (res_index & m1 & Hb & Hpoints & Hways).
  apply list_elem_of_lookup_1 in Hres as [pos Hl].
  apply (for_each_invariant
           (fun t => hit_marker (res_lat, res_lon)
                       "Residential Building near Power Object" ∈ children t)
           (ways self) (process_way geodesic self res_index))
    with (s := m1); [| |exact Hways].
  - intros way t t' _ Hc Hw.
    exact (way_grows geodesic self res_index Hb way t t' Hw _ Hc).
  - eapply (for_each_reaches _ _ _ (node_id, type_)); [| |exact Hobj|exact Hpoints].
    + intros obj t t' Ho. exact (power_object_grows geodesic self res_index Hb obj t t' Ho).
    + intros t t' Ho.
      exact (power_object_flags geodesic self res_index Hb node_id type_ lat lon
               threshold pos res_node res_lat res_lon t t'
               Hnode Hkind Hl Hlat Hlon Hbox Hle Ho).
Qed.

Lemma run_flags_point_hits_witness :
  exists m, create_map_optimized plane_distance sample = Ok m /\
    hit_marker (50.00006103515625, 40)%float
      "Residential Building near Power Object" ∈ children m.
Proof.
  eexists. split; [reflexivity|].
  apply (run_flags_point_hits plane_distance sample _ 1 "Substation" 50 40 10
           house_near 50.00006103515625 40); try reflexivity.
  - left.
  - left.
Defined.

(** X15. No hit of a segment inside its box is missed: when a map is
    returned, a residential record that lies in the padded box of two
    consecutive resolved vertices of a way and for which the smaller of
    the distances to the two vertices is at most the thickness of the way
    has its warning marker on the map. *)
Theorem run_flags_line_hits
    (geodesic : float * float -> float * float -> float)
    (self : MapCreator) (m : Map)
    (way : element) (way_nodes : list Z) (i : nat)
    (start_point end_point : float * float)
    (res_node : element) (res_lat res_lon : float) :
  size (nodes self) <> 0%nat ->
  create_map_optimized geodesic self = Ok m ->
  way ∈ ways self -> el_nodes way = Some way_nodes ->
  resolve_points self way_nodes !! i = Some start_point ->
  resolve_points self way_nodes !! (i + 1)%nat = Some end_point ->
  res_node ∈ residential_nodes self ->
  el_lat res_node = Some res_lat -> el_lon res_node = Some res_lon ->
  rtree.intersects (res_lon, res_lat, res_lon, res_lat)
    (segment_box start_point end_point) = true ->
  (Py.fmin (geodesic start_point (res_lat, res_lon))
           (geodesic end_point (res_lat, res_lon))
   <=? Py.float_of_int (get_thickness (way_voltage way)))%float = true ->
  hit_marker (res_lat, res_lon) "Residential Building near Power Line"
  ∈ children m.
Proof.
  intros Hn H Hway Hnodes Hs He Hres Hlat Hlon Hbox Hle.
  destruct (run_Ok_inv geodesic self m Hn H)
    as (res_index & m1 & Hb & _ & Hways).
  apply list_elem_of_lookup_1 in Hres as [pos Hl].
  eapply (for_each_reaches _ _ _ way); [| |exact Hway|exact Hways].
  - intros w t t' Hw. exact (way_grows geodesic self res_index Hb w t t' Hw).
  - intros t t' Hw.
    exact (way_flags geodesic self res_index Hb way way_nodes i start_point
             end_point pos res_node res_lat res_lon t t'
             Hnodes Hs He Hl Hlat Hlon Hbox Hle Hw).
Qed.

Lemma run_flags_line_hits_witness :
  exists m, create_map_optimized plane_distance sample = Ok m /\
    hit_marker (50.00006103515625, 40)%float
      "Residential Building near Power Line" ∈ children m.
Proof.
  eexists. split; [reflexivity|].
  apply (run_flags_line_hits plane_distance sample _ line_750kV [1; 7; 2] 0
           (50, 40)%float (50, 40.0009765625)%float
           house_near 50.00006103515625 40); try reflexivity.
  - vm_compute. discriminate.
  - left.
  - left.
Defined.
